(** * serial_reader.py: the [SerialReader] port session

    A shallow embedding of [src/serial_reader.py].  The [SerialReader]
    object is a record; its methods are computations in a small
    state-and-exception monad over the object and the world around it
    (the pyserial transport, the listener, the reader threads and a
    chronological trace of every call that leaves the object).  The
    transport is an interface: theorems quantify over every
    implementation of it, and two executable implementations (a loopback
    line and a scripted line) are used to run the methods. *)

From Stdlib Require Import ZArith NArith List Bool Ascii String Lia Floats.
Import ListNotations.

Set Implicit Arguments.

(** ** Python values *)

(** [bytes] objects. *)
Definition bytes := list Byte.byte.

(** [str] objects: sequences of Unicode code points. *)
Definition pystr := list N.

(** The exception classes the module distinguishes.  All of them derive
    from [Exception]; [SerialException] stands for [serial.SerialException]
    and its subclasses, [QueueEmpty] for [queue.Empty], [AttributeError]
    for a method looked up on [None], [UnexpectedError] for any other
    [Exception]. *)
Inductive exn : Type :=
| SerialException
| QueueEmpty
| AttributeError
| UnexpectedError.

(** What a call does: it returns a value or raises. *)
Inductive outcome (A : Type) : Type :=
| Returned (a : A)
| Raised (e : exn).
Arguments Raised {A} e.

Definition raises {A} (r : outcome A) : bool :=
  match r with Returned _ => false | Raised _ => true end.

(** *** [bytes.decode('utf-8', errors='ignore')]

    CPython's decoder, with the [ignore] handler dropping each malformed
    subsequence: one byte for an invalid start byte, the bytes accepted so
    far for an invalid continuation byte, and the whole tail for a
    sequence cut short by the end of the data. *)
Definition is_continuation (c : N) : bool :=
  ((128 <=? c) && (c <? 192))%N.

Definition cont_bits (c : N) : N := N.land c 63.

Fixpoint decode_utf8_ignore (b : list N) : pystr :=
  match b with
  | [] => []
  | ch :: rest =>
    if (ch <? 128)%N then ch :: decode_utf8_ignore rest
    else if (ch <? 194)%N then decode_utf8_ignore rest
    else if (ch <? 224)%N then
      match rest with
      | [] => []
      | ch2 :: r2 =>
        if negb (is_continuation ch2) then decode_utf8_ignore rest
        else N.lor (N.shiftl (N.land ch 31) 6) (cont_bits ch2)
               :: decode_utf8_ignore r2
      end
    else if (ch <? 240)%N then
      match rest with
      | [] => []
      | ch2 :: r2 =>
        if negb (is_continuation ch2)
           || (if (ch2 <? 160)%N then (ch =? 224)%N else (ch =? 237)%N)
        then decode_utf8_ignore rest
        else
          match r2 with
          | [] => []
          | ch3 :: r3 =>
            if negb (is_continuation ch3) then decode_utf8_ignore r2
            else N.lor (N.shiftl (N.land ch 15) 12)
                   (N.lor (N.shiftl (cont_bits ch2) 6) (cont_bits ch3))
                   :: decode_utf8_ignore r3
          end
      end
    else if (ch <? 245)%N then
      match rest with
      | [] => []
      | ch2 :: r2 =>
        if negb (is_continuation ch2)
           || (if (ch2 <? 144)%N then (ch =? 240)%N else (ch =? 244)%N)
        then decode_utf8_ignore rest
        else
          match r2 with
          | [] => []
          | ch3 :: r3 =>
            if negb (is_continuation ch3) then decode_utf8_ignore r2
            else
              match r3 with
              | [] => []
              | ch4 :: r4 =>
                if negb (is_continuation ch4) then decode_utf8_ignore r3
                else N.lor (N.shiftl (N.land ch 7) 18)
                       (N.lor (N.shiftl (cont_bits ch2) 12)
                          (N.lor (N.shiftl (cont_bits ch3) 6) (cont_bits ch4)))
                       :: decode_utf8_ignore r4
              end
          end
      end
    else decode_utf8_ignore rest
  end.

Definition decode (b : bytes) : pystr :=
  decode_utf8_ignore (map Byte.to_N b).

(** *** [str.strip()]: the code points for which [str.isspace] holds. *)
Definition isspace (c : N) : bool :=
  (((9 <=? c) && (c <=? 13)) || ((28 <=? c) && (c <=? 32))
   || (c =? 133) || (c =? 160) || (c =? 5760)
   || ((8192 <=? c) && (c <=? 8202))
   || (c =? 8232) || (c =? 8233) || (c =? 8239) || (c =? 8287)
   || (c =? 12288))%N.

Fixpoint lstrip (s : pystr) : pystr :=
  match s with
  | [] => []
  | c :: s' => if isspace c then lstrip s' else s
  end.

Definition rstrip (s : pystr) : pystr := rev (lstrip (rev s)).

Definition strip (s : pystr) : pystr := rstrip (lstrip s).

(** A [str] literal written with ASCII characters. *)
Fixpoint str_lit (s : string) : pystr :=
  match s with
  | EmptyString => []
  | String a s' => N_of_ascii a :: str_lit s'
  end.

(** ** The serial transport (pyserial), as an interface *)

(** The settings handed to [serial.Serial(...)] and reported back by the
    attributes of the connection object. *)
Record settings : Type := {
  st_port : string;
  st_baudrate : Z;
  st_timeout : float;
  st_bytesize : Z;
  st_parity : string;
  st_stopbits : Z
}.

(** Object identities: connection objects, thread objects, listeners. *)
Definition handle := nat.
Definition thread_id := nat.
Definition listener := nat.

(** The environment of a session.  [W] is the state of the outside world;
    each method of a connection object may change it and may raise.
    [t_listener] is the behaviour of the callables passed to
    [set_callback]. *)
Record Transport (W : Type) : Type := {
  t_open : settings -> handle -> W -> outcome unit * W;
  t_is_open : handle -> W -> bool;
  t_settings : handle -> W -> settings;
  t_in_waiting : handle -> W -> outcome Z * W;
  t_read : handle -> Z -> W -> outcome bytes * W;
  t_readline : handle -> W -> outcome bytes * W;
  t_write : handle -> bytes -> W -> outcome Z * W;
  t_flush : handle -> W -> outcome unit * W;
  t_close : handle -> W -> outcome unit * W;
  t_listener : listener -> bytes -> W -> outcome unit * W
}.

(** ** Logging *)

Inductive level : Type := DEBUG | INFO | WARNING | ERROR.

(** One constructor per [logger] call of the module. *)
Inductive message : Type :=
| MsgConnected (port : string) (baud : Z)
| MsgOpenFailed (port : string)
| MsgConnectionError (e : exn)
| MsgUnexpectedConnectionError (e : exn)
| MsgDisconnected (port : string)
| MsgNotConnected
| MsgAlreadyReading
| MsgStartedReading
| MsgStoppedReading
| MsgReceived (data : bytes)
| MsgReadError (e : exn)
| MsgUnexpectedReadError (e : exn)
| MsgWrote (n : Z) (data : bytes)
| MsgWriteError (e : exn).

(** ** Everything that leaves the object, in the order it happens *)
Inductive event : Type :=
| CallSerial (cfg : settings) (h : handle) (r : outcome unit)
| CallInWaiting (h : handle) (r : outcome Z)
| CallRead (h : handle) (size : Z) (r : outcome bytes)
| CallReadline (h : handle) (r : outcome bytes)
| CallWrite (h : handle) (data : bytes) (r : outcome Z)
| CallFlush (h : handle) (r : outcome unit)
| CallClose (h : handle) (r : outcome unit)
| CallListener (f : listener) (data : bytes) (r : outcome unit)
| ThreadStart (t : thread_id)
| ThreadJoin (t : thread_id)
| Sleep
| Log (l : level) (m : message).

(** A call on the transport itself: the constructor or a method of a
    connection object. *)
Definition is_transport_call (e : event) : bool :=
  match e with
  | CallSerial _ _ _ | CallInWaiting _ _ | CallRead _ _ _ | CallReadline _ _
  | CallWrite _ _ _ | CallFlush _ _ | CallClose _ _ => true
  | _ => false
  end.

Definition is_thread_start (e : event) : bool :=
  match e with ThreadStart _ => true | _ => false end.

Definition is_close_of (h : handle) (e : event) : bool :=
  match e with CallClose h' _ => Nat.eqb h h' | _ => false end.

(** A call on the transport that raised. *)
Definition call_raised (e : event) : bool :=
  match e with
  | CallSerial _ _ (Raised _) | CallInWaiting _ (Raised _)
  | CallRead _ _ (Raised _) | CallReadline _ (Raised _)
  | CallWrite _ _ (Raised _) | CallFlush _ (Raised _)
  | CallClose _ (Raised _) => true
  | _ => false
  end.

(** A transport-level read failure: the pending-byte query or the read
    raised a [SerialException]. *)
Definition read_failed (e : event) : bool :=
  match e with
  | CallInWaiting _ (Raised SerialException)
  | CallRead _ _ (Raised SerialException) => true
  | _ => false
  end.

(** The chunk a [read] call handed to the loop, when it is non-empty. *)
Definition chunk_of (e : event) : option bytes :=
  match e with
  | CallRead _ _ (Returned (b :: data)) => Some (b :: data)
  | _ => None
  end.

(** The chunk listener [f] was called with. *)
Definition heard_of (f : listener) (e : event) : option bytes :=
  match e with
  | CallListener f' data _ => if Nat.eqb f f' then Some data else None
  | _ => None
  end.

Fixpoint collect {A B} (f : A -> option B) (l : list A) : list B :=
  match l with
  | [] => []
  | a :: l' =>
    match f a with
    | Some b => b :: collect f l'
    | None => collect f l'
    end
  end.

Definition chunks_read (tr : list event) : list bytes := collect chunk_of tr.
Definition chunks_heard (f : listener) (tr : list event) : list bytes :=
  collect (heard_of f) tr.

Definition is_close (e : event) : bool :=
  match e with CallClose _ _ => true | _ => false end.

(** ** The session object *)

Record SerialReader : Type := {
  port : string;
  baudrate : Z;
  timeout : float;
  bytesize : Z;
  parity : string;
  stopbits : Z;
  serial_conn : option handle;
  is_connected : bool;
  is_reading : bool;
  read_thread : option thread_id;
  data_queue : list bytes;
  callback : option listener
}.

(** [SerialReader.__init__] *)
Definition init (port : string) (baudrate : Z) (timeout : float)
    (bytesize : Z) (parity : string) (stopbits : Z) : SerialReader :=
  {| port := port; baudrate := baudrate; timeout := timeout;
     bytesize := bytesize; parity := parity; stopbits := stopbits;
     serial_conn := None; is_connected := false; is_reading := false;
     read_thread := None; data_queue := []; callback := None |}.

(** The defaults of [__init__]: ['/dev/ttyUSB0'], 9600 baud, one second,
    [EIGHTBITS], [PARITY_NONE], [STOPBITS_ONE]. *)
Definition init_default : SerialReader :=
  init "/dev/ttyUSB0" 9600 1%float 8 "N" 1.

Definition set_serial_conn (c : option handle) (s : SerialReader) :=
  {| port := port s; baudrate := baudrate s; timeout := timeout s;
     bytesize := bytesize s; parity := parity s; stopbits := stopbits s;
     serial_conn := c; is_connected := is_connected s;
     is_reading := is_reading s; read_thread := read_thread s;
     data_queue := data_queue s; callback := callback s |}.

Definition set_is_connected (b : bool) (s : SerialReader) :=
  {| port := port s; baudrate := baudrate s; timeout := timeout s;
     bytesize := bytesize s; parity := parity s; stopbits := stopbits s;
     serial_conn := serial_conn s; is_connected := b;
     is_reading := is_reading s; read_thread := read_thread s;
     data_queue := data_queue s; callback := callback s |}.

Definition set_is_reading (b : bool) (s : SerialReader) :=
  {| port := port s; baudrate := baudrate s; timeout := timeout s;
     bytesize := bytesize s; parity := parity s; stopbits := stopbits s;
     serial_conn := serial_conn s; is_connected := is_connected s;
     is_reading := b; read_thread := read_thread s;
     data_queue := data_queue s; callback := callback s |}.

Definition set_read_thread (t : option thread_id) (s : SerialReader) :=
  {| port := port s; baudrate := baudrate s; timeout := timeout s;
     bytesize := bytesize s; parity := parity s; stopbits := stopbits s;
     serial_conn := serial_conn s; is_connected := is_connected s;
     is_reading := is_reading s; read_thread := t;
     data_queue := data_queue s; callback := callback s |}.

Definition set_data_queue (q : list bytes) (s : SerialReader) :=
  {| port := port s; baudrate := baudrate s; timeout := timeout s;
     bytesize := bytesize s; parity := parity s; stopbits := stopbits s;
     serial_conn := serial_conn s; is_connected := is_connected s;
     is_reading := is_reading s; read_thread := read_thread s;
     data_queue := q; callback := callback s |}.

Definition set_callback_field (f : option listener) (s : SerialReader) :=
  {| port := port s; baudrate := baudrate s; timeout := timeout s;
     bytesize := bytesize s; parity := parity s; stopbits := stopbits s;
     serial_conn := serial_conn s; is_connected := is_connected s;
     is_reading := is_reading s; read_thread := read_thread s;
     data_queue := data_queue s; callback := f |}.

Definition settings_of (s : SerialReader) : settings :=
  {| st_port := port s; st_baudrate := baudrate s; st_timeout := timeout s;
     st_bytesize := bytesize s; st_parity := parity s;
     st_stopbits := stopbits s |}.

(** ** The world around the object, and the monad of its methods *)

Section Session.

Variable W : Type.
Variable T : Transport W.

(** The state of the transport and listeners, the trace so far, the next
    fresh object identities, and the reader threads still running
    [_read_loop]. *)
Record World : Type := {
  dev : W;
  trace : list event;
  next_handle : handle;
  next_thread : thread_id;
  threads : list thread_id
}.

Definition State : Type := (SerialReader * World)%type.

(** A method body: from the object and the world to an outcome and the
    object and the world it leaves behind.  What was done before a raise
    stays done. *)
Definition M (A : Type) : Type := State -> outcome A * State.

Definition ret {A} (a : A) : M A := fun st => (Returned a, st).

Definition raise {A} (e : exn) : M A := fun st => (Raised e, st).

Definition bind {A B} (m : M A) (k : A -> M B) : M B :=
  fun st =>
    match m st with
    | (Returned a, st') => k a st'
    | (Raised e, st') => (Raised e, st')
    end.

(** [try: m  except ...: handler]; the handler answers [None] for an
    exception class no [except] clause names, which then propagates. *)
Definition try_except {A} (m : M A) (handler : exn -> option (M A)) : M A :=
  fun st =>
    match m st with
    | (Returned a, st') => (Returned a, st')
    | (Raised e, st') =>
      match handler e with
      | Some h => h st'
      | None => (Raised e, st')
      end
    end.

Notation "x <- m ;; k" := (bind m (fun x => k))
  (at level 61, m at next level, right associativity).
Notation "m ;; k" := (bind m (fun _ => k))
  (at level 61, right associativity).

(** Reading and assigning attributes of [self]. *)
Definition self {A} (field : SerialReader -> A) : M A :=
  fun st => (Returned (field (fst st)), st).

Definition assign (upd : SerialReader -> SerialReader) : M unit :=
  fun st => (Returned tt, (upd (fst st), snd st)).

Definition with_trace (w : World) (e : event) : World :=
  {| dev := dev w; trace := trace w ++ [e];
     next_handle := next_handle w; next_thread := next_thread w;
     threads := threads w |}.

Definition with_dev (w : World) (d : W) : World :=
  {| dev := d; trace := trace w;
     next_handle := next_handle w; next_thread := next_thread w;
     threads := threads w |}.

Definition emit (e : event) : M unit :=
  fun st => (Returned tt, (fst st, with_trace (snd st) e)).

Definition logger (l : level) (m : message) : M unit := emit (Log l m).

(** A call into the environment: run it on the world, record it with its
    outcome, and return or raise as it did. *)
Definition call {A} (f : W -> outcome A * W) (ev : outcome A -> event) : M A :=
  fun st =>
    let (r, d) := f (dev (snd st)) in
    (r, (fst st, with_trace (with_dev (snd st) d) (ev r))).

(** [self.serial_conn.<attr>]: an attribute of [None] raises. *)
Definition conn : M handle :=
  c <- self serial_conn ;;
  match c with
  | Some h => ret h
  | None => raise AttributeError
  end.

(** [serial.Serial(port=..., ...)]: a new connection object. *)
Definition Serial (cfg : settings) : M handle :=
  fun st =>
    let w := snd st in
    let h := next_handle w in
    let w1 :=
      {| dev := dev w; trace := trace w; next_handle := S h;
         next_thread := next_thread w; threads := threads w |} in
    (call (t_open T cfg h) (CallSerial cfg h) ;; ret h) (fst st, w1).

Definition conn_is_open (h : handle) : M bool :=
  fun st => (Returned (t_is_open T h (dev (snd st))), st).

Definition conn_settings (h : handle) : M settings :=
  fun st => (Returned (t_settings T h (dev (snd st))), st).

Definition conn_in_waiting (h : handle) : M Z :=
  call (t_in_waiting T h) (CallInWaiting h).

Definition conn_read (h : handle) (size : Z) : M bytes :=
  call (t_read T h size) (CallRead h size).

Definition conn_readline (h : handle) : M bytes :=
  call (t_readline T h) (CallReadline h).

Definition conn_write (h : handle) (data : bytes) : M Z :=
  call (t_write T h data) (CallWrite h data).

Definition conn_flush (h : handle) : M unit :=
  call (t_flush T h) (CallFlush h).

Definition conn_close (h : handle) : M unit :=
  call (t_close T h) (CallClose h).

Definition call_listener (f : listener) (data : bytes) : M unit :=
  call (t_listener T f data) (CallListener f data).

(** [threading.Thread(target=self._read_loop, daemon=True)] *)
Definition Thread : M thread_id :=
  fun st =>
    let w := snd st in
    let t := next_thread w in
    (Returned t,
     (fst st,
      {| dev := dev w; trace := trace w; next_handle := next_handle w;
         next_thread := S t; threads := threads w |})).

(** [thread.start()]: from now on the thread runs [_read_loop]. *)
Definition thread_start (t : thread_id) : M unit :=
  fun st =>
    let w := snd st in
    (Returned tt,
     (fst st,
      with_trace
        {| dev := dev w; trace := trace w; next_handle := next_handle w;
           next_thread := next_thread w; threads := threads w ++ [t] |}
        (ThreadStart t))).

(** [thread.join(timeout=2.0)]: the caller waits; the thread's own steps
    are taken by [reader_step] below. *)
Definition thread_join (t : thread_id) : M unit := emit (ThreadJoin t).

(** ** The methods of [SerialReader] *)

(** [stop_reading] *)
Definition stop_reading : M unit :=
  assign (set_is_reading false) ;;
  t <- self read_thread ;;
  match t with
  | Some th => thread_join th
  | None => ret tt
  end ;;
  logger INFO MsgStoppedReading.

(** [connect]: the body of the method and nothing else.  What the
    runtime does to the connection object the assignment drops is
    [connect_dropping] below. *)
Definition connect : M bool :=
  try_except
    (cfg <- self settings_of ;;
     h <- Serial cfg ;;
     assign (set_serial_conn (Some h)) ;;
     c <- conn ;;
     o <- conn_is_open c ;;
     if o then
       assign (set_is_connected true) ;;
       p <- self port ;;
       b <- self baudrate ;;
       logger INFO (MsgConnected p b) ;;
       ret true
     else
       p <- self port ;;
       logger ERROR (MsgOpenFailed p) ;;
       ret false)
    (fun e =>
       match e with
       | SerialException =>
         Some (logger ERROR (MsgConnectionError e) ;; ret false)
       | _ =>
         Some (logger ERROR (MsgUnexpectedConnectionError e) ;; ret false)
       end).

(** [disconnect] *)
Definition disconnect : M unit :=
  stop_reading ;;
  c <- self serial_conn ;;
  match c with
  | Some h =>
    o <- conn_is_open h ;;
    if o then
      conn_close h ;;
      assign (set_is_connected false) ;;
      p <- self port ;;
      logger INFO (MsgDisconnected p)
    else ret tt
  | None => ret tt
  end.

(** [set_callback] *)
Definition set_callback (f : option listener) : M unit :=
  assign (set_callback_field f).

(** [start_reading] *)
Definition start_reading : M unit :=
  c <- self is_connected ;;
  if negb c then logger ERROR MsgNotConnected
  else
    r <- self is_reading ;;
    if r then logger WARNING MsgAlreadyReading
    else
      assign (set_is_reading true) ;;
      t <- Thread ;;
      assign (set_read_thread (Some t)) ;;
      thread_start t ;;
      logger INFO MsgStartedReading.

(** [self.data_queue.put(data)] *)
Definition queue_put (data : bytes) : M unit :=
  q <- self data_queue ;;
  assign (set_data_queue (q ++ [data])).

(** [self.data_queue.get_nowait()] *)
Definition queue_get_nowait : M bytes :=
  q <- self data_queue ;;
  match q with
  | [] => raise QueueEmpty
  | data :: q' => assign (set_data_queue q') ;; ret data
  end.

(** The body of the [try] inside the [while] of [_read_loop].  The
    source asks [in_waiting] twice: once in the test, once for the size
    it passes to [read]. *)
Definition read_loop_try : M unit :=
  h <- conn ;;
  n <- conn_in_waiting h ;;
  if (0 <? n)%Z then
    h1 <- conn ;;
    h2 <- conn ;;
    size <- conn_in_waiting h2 ;;
    data <- conn_read h1 size ;;
    match data with
    | [] => ret tt
    | _ :: _ =>
      queue_put data ;;
      f <- self callback ;;
      match f with
      | Some cb => call_listener cb data
      | None => ret tt
      end ;;
      logger DEBUG (MsgReceived data)
    end
  else emit Sleep.

(** How a pass through the [while] ends: round again, or the loop is
    left, by its condition or by one of the two [break]s. *)
Inductive loop_exit : Type :=
| ConditionFalse
| SerialFailure
| UnexpectedFailure.

(** One test of the [while] condition and, when it holds, one pass
    through the body. *)
Definition read_loop_iter : M (option loop_exit) :=
  r <- self is_reading ;;
  c <- self is_connected ;;
  if r && c then
    try_except
      (read_loop_try ;; ret None)
      (fun e =>
         match e with
         | SerialException =>
           Some (logger ERROR (MsgReadError e) ;;
                 assign (set_is_connected false) ;;
                 ret (Some SerialFailure))
         | _ =>
           Some (logger ERROR (MsgUnexpectedReadError e) ;;
                 ret (Some UnexpectedFailure))
         end)
  else ret (Some ConditionFalse).

(** [_read_loop], run for at most [fuel] passes with nothing else
    touching the object in between; [None] when it is still going. *)
Fixpoint _read_loop (fuel : nat) : M (option loop_exit) :=
  match fuel with
  | O => ret None
  | S fuel' =>
    x <- read_loop_iter ;;
    match x with
    | None => _read_loop fuel'
    | Some e => ret (Some e)
    end
  end.

(** [read_line] *)
Definition read_line : M (option pystr) :=
  c <- self is_connected ;;
  if negb c then logger ERROR MsgNotConnected ;; ret None
  else
    try_except
      (h <- conn ;;
       line <- conn_readline h ;;
       match line with
       | _ :: _ => ret (Some (strip (decode line)))
       | [] => ret None
       end)
      (fun e =>
         match e with
         | SerialException => Some (logger ERROR (MsgReadError e) ;; ret None)
         | _ => None
         end).

(** [read_bytes] *)
Definition read_bytes (size : Z) : M (option bytes) :=
  c <- self is_connected ;;
  if negb c then logger ERROR MsgNotConnected ;; ret None
  else
    try_except
      (h <- conn ;;
       data <- conn_read h size ;;
       match data with
       | _ :: _ => ret (Some data)
       | [] => ret None
       end)
      (fun e =>
         match e with
         | SerialException => Some (logger ERROR (MsgReadError e) ;; ret None)
         | _ => None
         end).

(** [get_queued_data] *)
Definition get_queued_data : M (option bytes) :=
  try_except
    (data <- queue_get_nowait ;; ret (Some data))
    (fun e =>
       match e with
       | QueueEmpty => Some (ret None)
       | _ => None
       end).

(** [write] *)
Definition write (data : bytes) : M bool :=
  c <- self is_connected ;;
  if negb c then logger ERROR MsgNotConnected ;; ret false
  else
    try_except
      (h <- conn ;;
       bytes_written <- conn_write h data ;;
       h' <- conn ;;
       conn_flush h' ;;
       logger DEBUG (MsgWrote bytes_written data) ;;
       ret true)
      (fun e =>
         match e with
         | SerialException => Some (logger ERROR (MsgWriteError e) ;; ret false)
         | _ => None
         end).

(** The values of the mapping [get_port_info] returns. *)
Inductive value : Type :=
| VStr (s : string)
| VInt (z : Z)
| VFloat (f : float)
| VBool (b : bool).

(** [get_port_info] *)
Definition get_port_info : M (list (string * value)) :=
  c <- self serial_conn ;;
  match c with
  | None => ret []
  | Some h =>
    cfg <- conn_settings h ;;
    o <- conn_is_open h ;;
    n <- (if o then conn_in_waiting h else ret 0%Z) ;;
    ret [ ("port"%string, VStr (st_port cfg));
          ("baudrate"%string, VInt (st_baudrate cfg));
          ("bytesize"%string, VInt (st_bytesize cfg));
          ("parity"%string, VStr (st_parity cfg));
          ("stopbits"%string, VInt (st_stopbits cfg));
          ("timeout"%string, VFloat (st_timeout cfg));
          ("is_open"%string, VBool o);
          ("in_waiting"%string, VInt n) ]
  end.

(** ** Object lifetime

    [connect] rebinds [self.serial_conn].  When the session held the
    only reference to the connection object stored before, CPython
    reclaims that object at the rebinding and runs its finaliser,
    [io.IOBase.__del__], which calls the object's [close()] and discards
    whatever that call raises. *)
Definition finalise (h : handle) : M unit :=
  try_except (conn_close h) (fun _ => Some (ret tt)).

(** [self.serial_conn = c], with the object stored before dropped. *)
Definition rebind_serial_conn (c : handle) : M unit :=
  old <- self serial_conn ;;
  assign (set_serial_conn (Some c)) ;;
  match old with
  | Some h0 => finalise h0
  | None => ret tt
  end.

(** [connect] as CPython runs it on a session that holds the only
    reference to its connection object: the body of [connect], the
    assignment finalising the object it replaces. *)
Definition connect_dropping : M bool :=
  try_except
    (cfg <- self settings_of ;;
     h <- Serial cfg ;;
     rebind_serial_conn h ;;
     c <- conn ;;
     o <- conn_is_open c ;;
     if o then
       assign (set_is_connected true) ;;
       p <- self port ;;
       b <- self baudrate ;;
       logger INFO (MsgConnected p b) ;;
       ret true
     else
       p <- self port ;;
       logger ERROR (MsgOpenFailed p) ;;
       ret false)
    (fun e =>
       match e with
       | SerialException =>
         Some (logger ERROR (MsgConnectionError e) ;; ret false)
       | _ =>
         Some (logger ERROR (MsgUnexpectedConnectionError e) ;; ret false)
       end).

(** ** The caller and the reader threads, interleaved

    The caller's thread runs the public methods; each running reader
    thread takes passes through the [while] of [_read_loop].  A pass is
    taken as one step, so the schedules below interleave whole passes
    with whole method calls. *)

Definition remove_thread (t : thread_id) (w : World) : World :=
  {| dev := dev w; trace := trace w; next_handle := next_handle w;
     next_thread := next_thread w;
     threads := filter (fun t' => negb (Nat.eqb t t')) (threads w) |}.

(** One pass of reader thread [t]; the thread ends when the loop is left
    and takes no step once it has ended. *)
Definition reader_step (t : thread_id) : M (option loop_exit) :=
  fun st =>
    if existsb (Nat.eqb t) (threads (snd st)) then
      match read_loop_iter st with
      | (Returned None, st') => (Returned None, st')
      | (r, st') => (r, (fst st', remove_thread t (snd st')))
      end
    else (Returned (Some ConditionFalse), st).

Inductive action : Type :=
| DoConnect
| DoDisconnect
| DoSetCallback (f : option listener)
| DoStartReading
| DoStopReading
| DoReadLine
| DoReadBytes (size : Z)
| DoGetQueuedData
| DoWrite (data : bytes)
| DoGetPortInfo
| DoReaderStep (t : thread_id).

(** What an action hands back. *)
Inductive result : Type :=
| ResNone
| ResBool (b : bool)
| ResStr (s : option pystr)
| ResBytes (b : option bytes)
| ResInfo (d : list (string * value))
| ResLoop (x : option loop_exit).

Definition lift {A} (f : A -> result) (m : M A) : M result :=
  bind m (fun a => ret (f a)).

Definition perform (a : action) : M result :=
  match a with
  | DoConnect => lift ResBool connect
  | DoDisconnect => lift (fun _ => ResNone) disconnect
  | DoSetCallback f => lift (fun _ => ResNone) (set_callback f)
  | DoStartReading => lift (fun _ => ResNone) start_reading
  | DoStopReading => lift (fun _ => ResNone) stop_reading
  | DoReadLine => lift ResStr read_line
  | DoReadBytes size => lift ResBytes (read_bytes size)
  | DoGetQueuedData => lift ResBytes get_queued_data
  | DoWrite data => lift ResBool (write data)
  | DoGetPortInfo => lift ResInfo get_port_info
  | DoReaderStep t => lift ResLoop (reader_step t)
  end.

(** A schedule, run from left to right; an action that raises has raised
    into its own caller, and the schedule goes on. *)
Fixpoint run (l : list action) (st : State) : list (outcome result) * State :=
  match l with
  | [] => ([], st)
  | a :: l' =>
    let (r, st1) := perform a st in
    let (rs, st2) := run l' st1 in
    (r :: rs, st2)
  end.

(** The producer and the consumer of the queue: passes of the reader
    threads and calls of [get_queued_data]. *)
Definition is_delivery (a : action) : bool :=
  match a with
  | DoReaderStep _ | DoGetQueuedData => true
  | _ => false
  end.

(** The chunk a call handed to the caller. *)
Definition popped_of (r : outcome result) : option bytes :=
  match r with
  | Returned (ResBytes (Some c)) => Some c
  | _ => None
  end.

(** The lifecycle methods, and the steps of the reader threads they
    start and stop. *)
Definition is_lifecycle (a : action) : bool :=
  match a with
  | DoConnect | DoDisconnect | DoStartReading | DoStopReading
  | DoReaderStep _ => true
  | _ => false
  end.

(** [n] calls of [get_queued_data] in a row. *)
Fixpoint drain (n : nat) (st : State) : list (outcome (option bytes)) * State :=
  match n with
  | O => ([], st)
  | S n' =>
    let (r, st1) := get_queued_data st in
    let (rs, st2) := drain n' st1 in
    (r :: rs, st2)
  end.

(** The object as its own methods leave it: while [is_connected] holds a
    connection object is held, and the objects held were created
    earlier. *)
Definition consistent (st : State) : Prop :=
  (is_connected (fst st) = true -> serial_conn (fst st) <> None) /\
  (forall h, serial_conn (fst st) = Some h -> h < next_handle (snd st)).

(** The world [w] once the transport has moved to [d] and the events
    [evs] have been added to the trace. *)
Definition after (w : World) (d : W) (evs : list event) : World :=
  {| dev := d; trace := trace w ++ evs;
     next_handle := next_handle w; next_thread := next_thread w;
     threads := threads w |}.

(** The same once a connection object has been created as well. *)
Definition after_open (w : World) (d : W) (evs : list event) : World :=
  {| dev := d; trace := trace w ++ evs;
     next_handle := S (next_handle w); next_thread := next_thread w;
     threads := threads w |}.

(** The events added to the trace between [w] and a later [w']. *)
Definition events_since (w w' : World) : list event :=
  skipn (List.length (trace w)) (trace w').

(** A new object in a new world: nothing created, nothing running. *)
Definition fresh_world (d : W) : World :=
  {| dev := d; trace := []; next_handle := 0; next_thread := 0;
     threads := [] |}.

End Session.

Arguments fresh_world {W} d.
Arguments after {W} w d evs.
Arguments after_open {W} w d evs.
Arguments events_since {W} w w'.
Arguments World W : clear implicits.
Arguments State W : clear implicits.

(** What an action, or a schedule of actions, leaves unchanged and what
    it may change: [s] and the next fresh handle [nh] before, [s'] and
    [nh'] after, [evs] the events added to the trace. *)
Record act_frame (s s' : SerialReader) (nh nh' : handle)
    (evs : list event) : Prop := {
  af_handles : nh <= nh';
  af_conn :
    serial_conn s' = serial_conn s
    \/ exists h, serial_conn s' = Some h /\ nh <= h < nh';
  af_connected :
    is_connected s' = true ->
    is_connected s = true \/ exists h, serial_conn s' = Some h /\ nh <= h;
  af_close :
    forall h, existsb (is_close_of h) evs = true ->
              serial_conn s = Some h \/ nh <= h
}.

(** What one pass through the [while] of [_read_loop], or a run of
    passes, leaves unchanged and what it may change: [s] before, [s']
    after, [x] how it ended, [evs] the events it added to the trace. *)
Record pass_frame (s s' : SerialReader) (x : option loop_exit)
    (evs : list event) : Prop := {
  pf_conn : serial_conn s' = serial_conn s;
  pf_reading : is_reading s' = is_reading s;
  pf_thread : read_thread s' = read_thread s;
  pf_callback : callback s' = callback s;
  pf_settings : settings_of s' = settings_of s;
  pf_queue : data_queue s' = data_queue s ++ chunks_read evs;
  pf_connected :
    is_connected s' =
      match x with Some SerialFailure => false | _ => is_connected s end;
  pf_heard :
    forall f, callback s = Some f -> chunks_heard f evs = chunks_read evs;
  pf_silent :
    callback s = None -> forall f, chunks_heard f evs = [];
  pf_failed :
    x = Some SerialFailure \/ x = Some UnexpectedFailure ->
    is_reading s = true /\ is_connected s = true;
  pf_condition :
    x = Some ConditionFalse -> is_reading s' && is_connected s' = false;
  pf_read_failed :
    existsb read_failed evs = true -> x = Some SerialFailure;
  pf_no_start : existsb is_thread_start evs = false;
  pf_no_close : existsb is_close evs = false
}.

(** ** Two transports that run *)

(** *** A loopback line: what is written is what is read back *)
Module Loopback.

Record line : Type := {
  wire : bytes;
  opened : list (handle * settings)
}.

Definition idle : line := {| wire := []; opened := [] |}.

Definition on_wire (l : line) (b : bytes) : line :=
  {| wire := b; opened := opened l |}.

Definition is_open (h : handle) (l : line) : bool :=
  existsb (fun p => Nat.eqb h (fst p)) (opened l).

Definition no_settings : settings :=
  {| st_port := ""; st_baudrate := 0; st_timeout := 0%float;
     st_bytesize := 0; st_parity := ""; st_stopbits := 0 |}.

Definition settings_at (h : handle) (l : line) : settings :=
  match find (fun p => Nat.eqb h (fst p)) (opened l) with
  | Some p => snd p
  | None => no_settings
  end.

(** A method of a closed port raises [PortNotOpenError], a
    [SerialException]. *)
Definition when_open {A} (h : handle) (l : line)
    (k : outcome A * line) : outcome A * line :=
  if is_open h l then k else (Raised SerialException, l).

(** Up to and including the first line feed; everything when there is
    none and the timeout runs out. *)
Fixpoint split_line (b : bytes) : bytes * bytes :=
  match b with
  | [] => ([], [])
  | c :: b' =>
    if Byte.eqb c Byte.x0a then ([c], b')
    else let (l, r) := split_line b' in (c :: l, r)
  end.

Definition transport : Transport line := {|
  t_open := fun cfg h l =>
    (Returned tt, {| wire := wire l; opened := (h, cfg) :: opened l |});
  t_is_open := is_open;
  t_settings := settings_at;
  t_in_waiting := fun h l =>
    when_open h l (Returned (Z.of_nat (List.length (wire l))), l);
  t_read := fun h size l =>
    when_open h l
      (Returned (firstn (Z.to_nat size) (wire l)),
       on_wire l (skipn (Z.to_nat size) (wire l)));
  t_readline := fun h l =>
    when_open h l
      (Returned (fst (split_line (wire l))),
       on_wire l (snd (split_line (wire l))));
  t_write := fun h data l =>
    when_open h l
      (Returned (Z.of_nat (List.length data)), on_wire l (wire l ++ data));
  t_flush := fun h l => when_open h l (Returned tt, l);
  t_close := fun h l =>
    (Returned tt,
     {| wire := wire l;
        opened := filter (fun p => negb (Nat.eqb h (fst p))) (opened l) |});
  t_listener := fun _ _ l => (Returned tt, l)
|}.

(** The bytes [b"AT\r\n"]. *)
Definition AT_CRLF : bytes := [Byte.x41; Byte.x54; Byte.x0d; Byte.x0a].

(** A session just connected over an idle loopback line. *)
Definition connected_session : State line :=
  snd (connect transport (init_default, fresh_world idle)).

End Loopback.

(** *** A scripted line: every call takes the next reply of a script *)
Module Scripted.

Inductive reply : Type :=
| Done
| Num (z : Z)
| Data (b : bytes)
| Fail (e : exn).

Record line : Type := {
  open_flag : bool;
  script : list reply
}.

Definition next {A} (read : reply -> outcome A) (l : line) : outcome A * line :=
  match script l with
  | [] => (read Done, l)
  | r :: rs => (read r, {| open_flag := open_flag l; script := rs |})
  end.

Definition as_unit (r : reply) : outcome unit :=
  match r with Fail e => Raised e | _ => Returned tt end.

Definition as_num (r : reply) : outcome Z :=
  match r with Fail e => Raised e | Num z => Returned z | _ => Returned 0%Z end.

Definition as_data (r : reply) : outcome bytes :=
  match r with Fail e => Raised e | Data b => Returned b | _ => Returned [] end.

Definition transport : Transport line := {|
  t_open := fun _ _ => next as_unit;
  t_is_open := fun _ l => open_flag l;
  t_settings := fun _ _ => Loopback.no_settings;
  t_in_waiting := fun _ => next as_num;
  t_read := fun _ _ => next as_data;
  t_readline := fun _ => next as_data;
  t_write := fun _ _ => next as_num;
  t_flush := fun _ => next as_unit;
  t_close := fun _ => next as_unit;
  t_listener := fun _ _ => next as_unit
|}.

Definition plays (rs : list reply) : World line :=
  fresh_world {| open_flag := true; script := rs |}.

(** A default session after the schedule [l], the line playing [rs]. *)
Definition session_after (l : list action) (rs : list reply) : State line :=
  snd (run transport l (init_default, plays rs)).

(** A session connected over a line that goes on to play [rs]. *)
Definition connected (rs : list reply) : State line :=
  session_after [DoConnect] (Done :: rs).

(** The same with its reader thread started. *)
Definition reading (rs : list reply) : State line :=
  session_after [DoConnect; DoStartReading] (Done :: rs).

(** A reading session whose next poll raises a [SerialException]; the
    same after the pass of its reader thread that meets the failure; and
    after [stop_reading] and a [connect] that succeeds. *)
Definition dying_reader : State line :=
  Eval vm_compute in reading [Fail SerialException; Done].

Definition dead_reader : State line :=
  Eval vm_compute in snd (reader_step transport 0 dying_reader).

Definition broken_loop : State line :=
  Eval vm_compute in snd (_read_loop transport 5 dying_reader).

Definition reconnected : State line :=
  Eval vm_compute in snd (connect transport (snd (stop_reading dead_reader))).

Definition chunk1 : bytes := [Byte.x01; Byte.x02].
Definition chunk2 : bytes := [Byte.x03].
Definition chunk3 : bytes := [Byte.x04; Byte.x05; Byte.x06].

(** Three polls that each find a chunk waiting, with the replies of the
    listener in between. *)
Definition three_chunks : list reply :=
  [Num 2; Num 2; Data chunk1; Done;
   Num 1; Num 1; Data chunk2; Done;
   Num 3; Num 3; Data chunk3; Done].

(** A reading session with listener [7] registered, about to receive the
    three chunks. *)
Definition listening : State line :=
  session_after [DoSetCallback (Some 7); DoConnect; DoStartReading]
    (Done :: three_chunks).

End Scripted.

(** ** What a pass of the reader may add to the trace

    With the connection object [c] stored: pending-byte queries and reads
    on that object, calls of the listener, sleeps and log records, and
    nothing else. *)
Definition reader_event (c : option handle) (e : event) : bool :=
  match e with
  | CallInWaiting h _ | CallRead h _ _ =>
    match c with
    | Some h0 => Nat.eqb h0 h
    | None => false
    end
  | CallListener _ _ _ | Sleep | Log _ _ => true
  | _ => false
  end.

(** A chunk with at least one byte. *)
Definition nonempty (c : bytes) : Prop := c <> [].

(** The one action that opens a port. *)
Definition is_connect (a : action) : bool :=
  match a with DoConnect => true | _ => false end.

(** ** Sessions over the scripted line, for running the theorems *)
Module Examples.

Import Scripted.

(** Connected, nothing more to come from the line. *)
Definition linked : State line := Eval vm_compute in connected [].

(** The same after a second [connect], the object held before dropped. *)
Definition relinked : State line :=
  Eval vm_compute in snd (connect_dropping transport linked).

(** A loopback session connected a second time, the object held before
    dropped. *)
Definition looped_twice : State Loopback.line :=
  Eval vm_compute in
    snd (connect_dropping Loopback.transport Loopback.connected_session).

(** Connected and reading, nothing waiting at the next poll. *)
Definition idle_reader : State line := Eval vm_compute in reading [Num 0].

(** Connected and reading with listener [7], one chunk waiting and the
    listener about to raise. *)
Definition doomed_listener : State line :=
  Eval vm_compute in
    session_after [DoSetCallback (Some 7); DoConnect; DoStartReading]
      [Done; Num 2; Num 2; Data chunk1; Fail UnexpectedError].


(** The bytes [b"OK"]. *)
Definition OK : bytes := [Byte.x4f; Byte.x4b].

End Examples.
(** * Properties *)

(** Unfolding a method down to the calls it makes on the world. *)
Ltac unfold_monad :=
  cbv [lift set_callback stop_reading start_reading queue_put
       queue_get_nowait conn Serial conn_is_open conn_settings
       conn_in_waiting conn_read conn_readline conn_write conn_flush
       conn_close call_listener Thread thread_start thread_join
       logger emit call self assign raise ret bind try_except
       fst snd] in *.

(** Running a method under the hypotheses at hand. *)
Ltac run_method :=
  unfold_monad; simpl;
  repeat match goal with
         | H : ?l = _ |- context [?l] => rewrite H; simpl
         end.

Section Facts.

Variable W : Type.
Variable T : Transport W.

Implicit Types (s : SerialReader) (w : World W) (st : State W).

(** ** The queue *)

Lemma get_queued_data_empty s w :
  data_queue s = [] ->
  get_queued_data (s, w) = (Returned None, (s, w)).
Proof.
  intros Hq. unfold get_queued_data. unfold_monad. rewrite Hq. reflexivity.
Qed.

Lemma get_queued_data_cons s w c q :
  data_queue s = c :: q ->
  get_queued_data (s, w) = (Returned (Some c), (set_data_queue q s, w)).
Proof.
  intros Hq. unfold get_queued_data. unfold_monad. rewrite Hq. reflexivity.
Qed.

(** Draining as many chunks as are queued hands them back oldest first
    and touches nothing but the queue. *)
Lemma drain_queue : forall (q : list bytes) s w,
  data_queue s = q ->
  drain (List.length q) (s, w) = (map (fun c => Returned (Some c)) q, (set_data_queue [] s, w)).
Proof.
  induction q as [| c q IH]; intros s w Hq; simpl.
  - destruct s; simpl in *; subst; reflexivity.
  - rewrite (get_queued_data_cons s w Hq).
    rewrite (IH (set_data_queue q s) w eq_refl).
    reflexivity.
Qed.

Lemma drain_app : forall n m st,
  drain (n + m) st =
  (fst (drain n st) ++ fst (drain m (snd (drain n st))),
   snd (drain m (snd (drain n st)))).
Proof.
  induction n as [| n IH]; intros m st; simpl.
  - destruct (drain m st); reflexivity.
  - destruct (get_queued_data st) as [r st1].
    rewrite IH. destruct (drain n st1) as [rs st2]; simpl.
    destruct (drain m st2); reflexivity.
Qed.

(** C7. [get_queued_data] is a total function of the queue alone: on a
    non-empty queue it returns the oldest chunk and leaves the rest, on an
    empty queue it returns [None]; in both cases it returns rather than
    raises, and it makes no call on the world (no transport call, no
    join, no sleep): the world and its trace are as before. *)
Theorem get_queued_data_never_blocks_never_throws :
  forall (s : SerialReader) (w : World W),
    get_queued_data (s, w) =
      match data_queue s with
      | [] => (Returned None, (s, w))
      | oldest :: rest =>
        (Returned (Some oldest), (set_data_queue rest s, w))
      end
    /\ raises (fst (get_queued_data (s, w))) = false
    /\ snd (snd (get_queued_data (s, w))) = w.
Proof.
  intros s w.
  destruct (data_queue s) as [| c q] eqn:Hq.
  - rewrite (get_queued_data_empty s w Hq). auto.
  - rewrite (get_queued_data_cons s w Hq). auto.
Qed.

(** ** Starting the reader *)

Lemma start_reading_not_connected s w :
  is_connected s = false ->
  start_reading (s, w) = (Returned tt, (s, with_trace w (Log ERROR MsgNotConnected))).
Proof.
  intros Hc. run_method. reflexivity.
Qed.

Lemma start_reading_already s w :
  is_connected s = true -> is_reading s = true ->
  start_reading (s, w) = (Returned tt, (s, with_trace w (Log WARNING MsgAlreadyReading))).
Proof.
  intros Hc Hr. run_method. reflexivity.
Qed.

Lemma start_reading_spawns s w :
  is_connected s = true -> is_reading s = false ->
  start_reading (s, w) =
    (Returned tt,
     (set_read_thread (Some (next_thread w)) (set_is_reading true s),
      {| dev := dev w;
         trace := trace w ++ [ThreadStart (next_thread w); Log INFO MsgStartedReading];
         next_handle := next_handle w;
         next_thread := S (next_thread w);
         threads := threads w ++ [next_thread w] |})).
Proof.
  intros Hc Hr. run_method.
  unfold with_trace; simpl. rewrite <- app_assoc. reflexivity.
Qed.

(** C4 (as the code has it).  On a session that is not connected
    [start_reading] logs an error and does nothing else: no thread is
    created or started and the object is unchanged, so [is_reading] keeps
    the value it had, false or true.  On a connected session that is
    already reading it logs a warning and does nothing else. *)
Theorem start_reading_refused :
  forall (s : SerialReader) (w : World W),
    (is_connected s = false ->
       start_reading (s, w) =
         (Returned tt, (s, with_trace w (Log ERROR MsgNotConnected)))
       /\ threads (snd (snd (start_reading (s, w)))) = threads w
       /\ next_thread (snd (snd (start_reading (s, w)))) = next_thread w
       /\ is_reading (fst (snd (start_reading (s, w)))) = is_reading s
       /\ (is_reading s = false ->
           is_reading (fst (snd (start_reading (s, w)))) = false))
    /\ (is_connected s = true -> is_reading s = true ->
       start_reading (s, w) =
         (Returned tt, (s, with_trace w (Log WARNING MsgAlreadyReading)))
       /\ threads (snd (snd (start_reading (s, w)))) = threads w
       /\ next_thread (snd (snd (start_reading (s, w)))) = next_thread w).
Proof.
  intros s w. split.
  - intros Hc. rewrite (start_reading_not_connected s w Hc). simpl. auto.
  - intros Hc Hr. rewrite (start_reading_already s w Hc Hr). simpl. auto.
Qed.

(** ** Writing *)

Lemma write_not_connected s w data :
  is_connected s = false ->
  write T data (s, w) =
    (Returned false, (s, with_trace w (Log ERROR MsgNotConnected))).
Proof.
  intros Hc. unfold write. run_method. reflexivity.
Qed.

Lemma write_ok s w data h n d1 d2 :
  is_connected s = true -> serial_conn s = Some h ->
  t_write T h data (dev w) = (Returned n, d1) ->
  t_flush T h d1 = (Returned tt, d2) ->
  write T data (s, w) =
    (Returned true,
     (s, after w d2 [CallWrite h data (Returned n); CallFlush h (Returned tt);
                     Log DEBUG (MsgWrote n data)])).
Proof.
  intros Hc Hh Hw Hf. unfold write. run_method.
  unfold after, with_trace; simpl. rewrite <- !app_assoc. reflexivity.
Qed.

Lemma write_serial_error s w data h d1 :
  is_connected s = true -> serial_conn s = Some h ->
  t_write T h data (dev w) = (Raised SerialException, d1) ->
  write T data (s, w) =
    (Returned false,
     (s, after w d1 [CallWrite h data (Raised SerialException);
                     Log ERROR (MsgWriteError SerialException)])).
Proof.
  intros Hc Hh Hw. unfold write. run_method.
  unfold after, with_trace; simpl. rewrite <- !app_assoc. reflexivity.
Qed.

Lemma write_flush_serial_error s w data h n d1 d2 :
  is_connected s = true -> serial_conn s = Some h ->
  t_write T h data (dev w) = (Returned n, d1) ->
  t_flush T h d1 = (Raised SerialException, d2) ->
  write T data (s, w) =
    (Returned false,
     (s, after w d2 [CallWrite h data (Returned n);
                     CallFlush h (Raised SerialException);
                     Log ERROR (MsgWriteError SerialException)])).
Proof.
  intros Hc Hh Hw Hf. unfold write. run_method.
  unfold after, with_trace; simpl. rewrite <- !app_assoc. reflexivity.
Qed.

(** C5. On a session that is not connected [write] returns [False], and
    the only thing it does is log the error: the transport is left as it
    was and no call on it is recorded.  On a connected session it hands
    the whole of [data] to the transport's [write], then calls [flush],
    and returns [True]; when the transport's [write] (or the [flush])
    raises a [SerialException] it returns [False] instead. *)
Theorem write_contract :
  forall (s : SerialReader) (w : World W) (data : bytes),
    (is_connected s = false ->
       write T data (s, w) =
         (Returned false, (s, with_trace w (Log ERROR MsgNotConnected)))
       /\ dev (snd (snd (write T data (s, w)))) = dev w
       /\ filter is_transport_call (trace (snd (snd (write T data (s, w)))))
          = filter is_transport_call (trace w))
    /\ (forall h n d1 d2,
         is_connected s = true -> serial_conn s = Some h ->
         t_write T h data (dev w) = (Returned n, d1) ->
         t_flush T h d1 = (Returned tt, d2) ->
         write T data (s, w) =
           (Returned true,
            (s, after w d2 [CallWrite h data (Returned n);
                            CallFlush h (Returned tt);
                            Log DEBUG (MsgWrote n data)])))
    /\ (forall h d1,
         is_connected s = true -> serial_conn s = Some h ->
         t_write T h data (dev w) = (Raised SerialException, d1) ->
         write T data (s, w) =
           (Returned false,
            (s, after w d1 [CallWrite h data (Raised SerialException);
                            Log ERROR (MsgWriteError SerialException)])))
    /\ (forall h n d1 d2,
         is_connected s = true -> serial_conn s = Some h ->
         t_write T h data (dev w) = (Returned n, d1) ->
         t_flush T h d1 = (Raised SerialException, d2) ->
         fst (write T data (s, w)) = Returned false).
Proof.
  intros s w data. repeat split.
  - apply write_not_connected; assumption.
  - rewrite write_not_connected by assumption. reflexivity.
  - rewrite write_not_connected by assumption. simpl.
    rewrite filter_app. simpl. apply app_nil_r.
  - intros h n d1 d2 Hc Hh Hw Hf. eapply write_ok; eassumption.
  - intros h d1 Hc Hh Hw. eapply write_serial_error; eassumption.
  - intros h n d1 d2 Hc Hh Hw Hf.
    erewrite write_flush_serial_error by eassumption. reflexivity.
Qed.

(** ** Reading a line *)

Lemma read_line_not_connected s w :
  is_connected s = false ->
  read_line T (s, w) =
    (Returned None, (s, with_trace w (Log ERROR MsgNotConnected))).
Proof.
  intros Hc. unfold read_line. run_method. reflexivity.
Qed.

Lemma read_line_data s w h line d :
  is_connected s = true -> serial_conn s = Some h ->
  t_readline T h (dev w) = (Returned line, d) ->
  read_line T (s, w) =
    (Returned (match line with
               | [] => None
               | _ :: _ => Some (strip (decode line))
               end),
     (s, after w d [CallReadline h (Returned line)])).
Proof.
  intros Hc Hh Hl. unfold read_line. run_method.
  destruct line; reflexivity.
Qed.

Lemma read_line_serial_error s w h d :
  is_connected s = true -> serial_conn s = Some h ->
  t_readline T h (dev w) = (Raised SerialException, d) ->
  read_line T (s, w) =
    (Returned None,
     (s, after w d [CallReadline h (Raised SerialException);
                    Log ERROR (MsgReadError SerialException)])).
Proof.
  intros Hc Hh Hl. unfold read_line. run_method.
  unfold after, with_trace; simpl. rewrite <- !app_assoc. reflexivity.
Qed.

End Facts.

(** ** The round trip over a loopback line *)

Lemma loopback_write s (w : World Loopback.line) h data :
  is_connected s = true -> serial_conn s = Some h ->
  Loopback.is_open h (dev w) = true ->
  write Loopback.transport data (s, w) =
    (Returned true,
     (s, after w (Loopback.on_wire (dev w) (Loopback.wire (dev w) ++ data))
           [CallWrite h data (Returned (Z.of_nat (List.length data)));
            CallFlush h (Returned tt);
            Log DEBUG (MsgWrote (Z.of_nat (List.length data)) data)])).
Proof.
  intros Hc Hh Ho.
  apply write_ok with (d1 := Loopback.on_wire (dev w) (Loopback.wire (dev w) ++ data));
    try assumption; simpl; unfold Loopback.when_open.
  - rewrite Ho. reflexivity.
  - unfold Loopback.on_wire, Loopback.is_open in *; simpl. rewrite Ho. reflexivity.
Qed.

(** C6. Over a loopback line with nothing pending, [write(b"AT\r\n")]
    succeeds and the [read_line()] that follows returns the text ["AT"],
    the line terminator stripped.  And over any transport, on a connected
    session whose [readline] returns no data, [read_line()] returns
    [None]: it returns, it does not raise. *)
Theorem write_then_read_line :
  (forall (s : SerialReader) (w : World Loopback.line) (h : handle),
     is_connected s = true -> serial_conn s = Some h ->
     Loopback.is_open h (dev w) = true -> Loopback.wire (dev w) = [] ->
     fst (write Loopback.transport Loopback.AT_CRLF (s, w)) = Returned true
     /\ fst (read_line Loopback.transport
               (snd (write Loopback.transport Loopback.AT_CRLF (s, w))))
        = Returned (Some (str_lit "AT")))
  /\ (forall (W : Type) (T : Transport W) (s : SerialReader) (w : World W)
            (h : handle) (d : W),
       is_connected s = true -> serial_conn s = Some h ->
       t_readline T h (dev w) = (Returned [], d) ->
       read_line T (s, w) =
         (Returned None, (s, after w d [CallReadline h (Returned [])]))).
Proof.
  split.
  - intros s w h Hc Hh Ho Hw.
    rewrite (loopback_write s w Loopback.AT_CRLF Hc Hh Ho). simpl. split; [reflexivity |].
    erewrite read_line_data with (h := h) (line := Loopback.AT_CRLF); try eassumption.
    + reflexivity.
    + simpl. unfold Loopback.when_open, Loopback.is_open in *; simpl.
      rewrite Ho, Hw. reflexivity.
  - intros W T s w h d Hc Hh Hl.
    rewrite (read_line_data T s w Hc Hh Hl). reflexivity.
Qed.

(** ** Connecting, disconnecting, stopping *)

Section Lifecycle.

Variable W : Type.
Variable T : Transport W.

Implicit Types (s : SerialReader) (w : World W).

Lemma stop_reading_eq s w :
  stop_reading (s, w) =
    (Returned tt,
     (set_is_reading false s,
      after w (dev w)
        (match read_thread s with
         | Some th => [ThreadJoin th; Log INFO MsgStoppedReading]
         | None => [Log INFO MsgStoppedReading]
         end))).
Proof.
  unfold_monad. simpl. destruct (read_thread s); simpl;
    unfold after, with_trace; simpl; rewrite <- ?app_assoc; reflexivity.
Qed.

(** The constructor returned and the port reports itself open. *)
Lemma connect_opened s w d :
  t_open T (settings_of s) (next_handle w) (dev w) = (Returned tt, d) ->
  t_is_open T (next_handle w) d = true ->
  connect T (s, w) =
    (Returned true,
     (set_is_connected true (set_serial_conn (Some (next_handle w)) s),
      after_open w d
        [CallSerial (settings_of s) (next_handle w) (Returned tt);
         Log INFO (MsgConnected (port s) (baudrate s))])).
Proof.
  intros Ho Hi. unfold connect. run_method.
  unfold after_open, with_trace; simpl. rewrite <- !app_assoc. reflexivity.
Qed.

(** The constructor returned an object that is not open. *)
Lemma connect_not_open s w d :
  t_open T (settings_of s) (next_handle w) (dev w) = (Returned tt, d) ->
  t_is_open T (next_handle w) d = false ->
  connect T (s, w) =
    (Returned false,
     (set_serial_conn (Some (next_handle w)) s,
      after_open w d
        [CallSerial (settings_of s) (next_handle w) (Returned tt);
         Log ERROR (MsgOpenFailed (port s))])).
Proof.
  intros Ho Hi. unfold connect. run_method.
  unfold after_open, with_trace; simpl. rewrite <- !app_assoc. reflexivity.
Qed.

(** The constructor raised: both handlers log and return [False]. *)
Lemma connect_raised s w e d :
  t_open T (settings_of s) (next_handle w) (dev w) = (Raised e, d) ->
  connect T (s, w) =
    (Returned false,
     (s,
      after_open w d
        [CallSerial (settings_of s) (next_handle w) (Raised e);
         Log ERROR (match e with
                    | SerialException => MsgConnectionError e
                    | _ => MsgUnexpectedConnectionError e
                    end)])).
Proof.
  intros Ho. unfold connect. run_method.
  destruct e; simpl;
    unfold after_open, with_trace; simpl; rewrite <- !app_assoc; reflexivity.
Qed.

(** [connect] returns [True] exactly when the constructor returned an
    open port, and then the object is connected to the new handle. *)
Lemma connect_true s w s' w' :
  connect T (s, w) = (Returned true, (s', w')) ->
  s' = set_is_connected true (set_serial_conn (Some (next_handle w)) s)
  /\ threads w' = threads w /\ next_thread w' = next_thread w
  /\ next_handle w' = S (next_handle w).
Proof.
  destruct (t_open T (settings_of s) (next_handle w) (dev w))
    as [[[] | e] d] eqn:Ho.
  - destruct (t_is_open T (next_handle w) d) eqn:Hi.
    + rewrite (connect_opened s w Ho Hi). intros H; inversion H; subst.
      simpl. auto.
    + rewrite (connect_not_open s w Ho Hi). discriminate.
  - rewrite (connect_raised s w Ho). discriminate.
Qed.

(** [disconnect] with no connection object, or one that is not open:
    only the reader is stopped. *)
Lemma disconnect_idle s w :
  match serial_conn s with
  | Some h => t_is_open T h (dev w) = false
  | None => True
  end ->
  disconnect T (s, w) = stop_reading (s, w).
Proof.
  intros H. unfold disconnect. unfold bind at 1. rewrite stop_reading_eq.
  unfold_monad. simpl. destruct (serial_conn s); simpl.
  - rewrite H. reflexivity.
  - reflexivity.
Qed.

Lemma disconnect_closes s w h d :
  serial_conn s = Some h -> t_is_open T h (dev w) = true ->
  t_close T h (dev w) = (Returned tt, d) ->
  disconnect T (s, w) =
    (Returned tt,
     (set_is_connected false (set_is_reading false s),
      after w d
        (match read_thread s with
         | Some th => [ThreadJoin th; Log INFO MsgStoppedReading]
         | None => [Log INFO MsgStoppedReading]
         end ++ [CallClose h (Returned tt); Log INFO (MsgDisconnected (port s))]))).
Proof.
  intros Hh Ho Hc. unfold disconnect. unfold bind at 1. rewrite stop_reading_eq.
  run_method.
  unfold after, with_trace; simpl. rewrite <- !app_assoc. reflexivity.
Qed.

(** [close] raising: nothing catches it, and [is_connected] is not
    cleared. *)
Lemma disconnect_close_raises s w h e d :
  serial_conn s = Some h -> t_is_open T h (dev w) = true ->
  t_close T h (dev w) = (Raised e, d) ->
  disconnect T (s, w) =
    (Raised e,
     (set_is_reading false s,
      after w d
        (match read_thread s with
         | Some th => [ThreadJoin th; Log INFO MsgStoppedReading]
         | None => [Log INFO MsgStoppedReading]
         end ++ [CallClose h (Raised e)]))).
Proof.
  intros Hh Ho Hc. unfold disconnect. unfold bind at 1. rewrite stop_reading_eq.
  run_method.
  unfold after, with_trace; simpl. rewrite <- !app_assoc. reflexivity.
Qed.

End Lifecycle.

(** ** The reader loop *)

Section Loop.

Variable W : Type.
Variable T : Transport W.

Implicit Types (s : SerialReader) (w : World W).

Lemma after_nothing w : after w (dev w) [] = w.
Proof.
  destruct w; unfold after; simpl. rewrite app_nil_r. reflexivity.
Qed.

Lemma after_after w d1 evs1 d2 evs2 :
  after (after w d1 evs1) d2 evs2 = after w d2 (evs1 ++ evs2).
Proof.
  unfold after; simpl. rewrite app_assoc. reflexivity.
Qed.

Lemma collect_app {A B} (f : A -> option B) (l1 l2 : list A) :
  collect f (l1 ++ l2) = collect f l1 ++ collect f l2.
Proof.
  induction l1 as [| a l1 IH]; simpl; [reflexivity |].
  destruct (f a); simpl; rewrite IH; reflexivity.
Qed.

Ltac settle :=
  simpl; repeat match goal with
                | H : ?l = _ |- context [?l] => rewrite H; simpl
                end.

Ltac close_pass :=
  do 4 eexists; split;
  [ unfold after, with_trace, with_dev; simpl;
    rewrite <- ?app_assoc; simpl; reflexivity
  | constructor; unfold chunks_read, chunks_heard; simpl;
    rewrite ?app_nil_r; try reflexivity; try congruence;
    try solve [intuition congruence];
    try (intros f Hf; try rewrite Hf in *; simpl;
         try match goal with
             | H : Some _ = Some _ |- _ => injection H as ->
             end;
         rewrite ?Nat.eqb_refl; try reflexivity; congruence) ].

(** One pass returns, whatever the transport and the listener do. *)
Lemma read_loop_iter_frame s w :
  exists x s' d evs,
    read_loop_iter T (s, w) = (Returned x, (s', after w d evs))
    /\ pass_frame s s' x evs.
Proof.
  unfold read_loop_iter, read_loop_try. unfold_monad. simpl.
  destruct (is_reading s) eqn:Hr; destruct (is_connected s) eqn:Hc; simpl;
    try (exists (Some ConditionFalse), s, (dev w), [];
         split; [rewrite after_nothing; reflexivity
                | constructor; unfold chunks_read, chunks_heard; simpl;
                  rewrite ?app_nil_r, ?Hr, ?Hc; auto;
                  solve [intuition congruence]]).
  destruct (serial_conn s) as [h |] eqn:Hh; settle.
  2: { close_pass. }
  destruct (t_in_waiting T h (dev w)) as [[n | e1] d1] eqn:E1; settle.
  2: { destruct e1; close_pass. }
  destruct (0 <? n)%Z; settle.
  2: { close_pass. }
  destruct (t_in_waiting T h d1) as [[size | e2] d2] eqn:E2; settle.
  2: { destruct e2; close_pass. }
  destruct (t_read T h size d2) as [[[| b data] | e3] d3] eqn:E3; settle.
  3: { destruct e3; close_pass. }
  1: { close_pass. }
  destruct (callback s) as [cb |] eqn:Hcb; settle.
  2: { close_pass. }
  destruct (t_listener T cb (b :: data) d3) as [[[] | e4] d4] eqn:E4; settle.
  2: { destruct e4; close_pass. }
  close_pass.
Qed.

(** Passes that go round again compose with what follows them. *)
Lemma pass_frame_then s s1 s2 x evs1 evs2 :
  pass_frame s s1 None evs1 ->
  pass_frame s1 s2 x evs2 ->
  pass_frame s s2 x (evs1 ++ evs2).
Proof.
  intros F1 F2.
  constructor; unfold chunks_read, chunks_heard in *;
    rewrite ?collect_app, ?existsb_app.
  - rewrite (pf_conn F2). apply (pf_conn F1).
  - rewrite (pf_reading F2). apply (pf_reading F1).
  - rewrite (pf_thread F2). apply (pf_thread F1).
  - rewrite (pf_callback F2). apply (pf_callback F1).
  - rewrite (pf_settings F2). apply (pf_settings F1).
  - rewrite (pf_queue F2), (pf_queue F1), app_assoc. reflexivity.
  - rewrite (pf_connected F2), (pf_connected F1). reflexivity.
  - intros f Hf.
    assert (Hf1 : callback s1 = Some f) by (rewrite (pf_callback F1); exact Hf).
    pose proof (pf_heard F1 Hf) as H1. pose proof (pf_heard F2 Hf1) as H2.
    unfold chunks_read, chunks_heard in H1, H2.
    rewrite !collect_app, H1, H2. reflexivity.
  - intros Hf f.
    assert (Hf1 : callback s1 = None) by (rewrite (pf_callback F1); exact Hf).
    pose proof (pf_silent F1 Hf f) as H1. pose proof (pf_silent F2 Hf1 f) as H2.
    unfold chunks_heard in H1, H2.
    rewrite collect_app, H1, H2. reflexivity.
  - intros Hx. destruct (pf_failed F2 Hx) as [Hr Hc].
    rewrite (pf_reading F1) in Hr. rewrite (pf_connected F1) in Hc.
    split; assumption.
  - apply (pf_condition F2).
  - intros H. apply orb_true_iff in H. destruct H as [H | H].
    + pose proof (pf_read_failed F1 H). discriminate.
    + apply (pf_read_failed F2 H).
  - rewrite (pf_no_start F1), (pf_no_start F2). reflexivity.
  - rewrite (pf_no_close F1), (pf_no_close F2). reflexivity.
Qed.

Lemma pass_frame_none s : pass_frame s s None [].
Proof.
  constructor; unfold chunks_read, chunks_heard; simpl;
    rewrite ?app_nil_r; auto; try discriminate.
  intros [|]; discriminate.
Qed.

(** [_read_loop] returns, for any fuel. *)
Lemma read_loop_frame : forall fuel s w,
  exists x s' d evs,
    _read_loop T fuel (s, w) = (Returned x, (s', after w d evs))
    /\ pass_frame s s' x evs.
Proof.
  induction fuel as [| fuel IH]; intros s w; simpl.
  - exists None, s, (dev w), []. split.
    + rewrite after_nothing. reflexivity.
    + apply pass_frame_none.
  - destruct (read_loop_iter_frame s w) as (x1 & s1 & d1 & evs1 & E1 & F1).
    unfold bind at 1. rewrite E1.
    destruct x1 as [e |].
    + exists (Some e), s1, d1, evs1. split; [reflexivity | assumption].
    + destruct (IH s1 (after w d1 evs1)) as (x2 & s2 & d2 & evs2 & E2 & F2).
      rewrite E2, after_after.
      exists x2, s2, d2, (evs1 ++ evs2). split; [reflexivity |].
      eapply pass_frame_then; eassumption.
Qed.

End Loop.

(** ** The reader thread: delivery and failure *)

Section Reader.

Variable W : Type.
Variable T : Transport W.

Implicit Types (s : SerialReader) (w : World W).

Lemma alive_iff t w :
  existsb (Nat.eqb t) (threads w) = true <-> In t (threads w).
Proof.
  rewrite existsb_exists. split.
  - intros (t' & Hin & Heq). apply Nat.eqb_eq in Heq. subst. assumption.
  - intros Hin. exists t. split; [assumption | apply Nat.eqb_refl].
Qed.

Lemma remove_thread_gone t w : ~ In t (threads (remove_thread t w)).
Proof.
  unfold remove_thread; simpl. rewrite filter_In.
  intros [_ H]. rewrite Nat.eqb_refl in H. discriminate.
Qed.

(** A pass of a running thread: the thread goes on when the pass goes
    round again and is gone when the loop is left. *)
Lemma reader_step_frame t s w :
  In t (threads w) ->
  exists x s' d evs,
    reader_step T t (s, w) =
      (Returned x,
       (s', match x with
            | None => after w d evs
            | Some _ => remove_thread t (after w d evs)
            end))
    /\ pass_frame s s' x evs.
Proof.
  intros Hin. apply alive_iff in Hin.
  destruct (read_loop_iter_frame T s w) as (x & s' & d & evs & E & F).
  exists x, s', d, evs. split; [| assumption].
  unfold reader_step. simpl. rewrite Hin, E.
  destruct x; reflexivity.
Qed.

(** The first [in_waiting] of a pass raising a [SerialException]. *)
Lemma read_loop_iter_poll_fails s w h d :
  is_reading s = true -> is_connected s = true -> serial_conn s = Some h ->
  t_in_waiting T h (dev w) = (Raised SerialException, d) ->
  read_loop_iter T (s, w) =
    (Returned (Some SerialFailure),
     (set_is_connected false s,
      after w d [CallInWaiting h (Raised SerialException);
                 Log ERROR (MsgReadError SerialException)])).
Proof.
  intros Hr Hc Hh Hp. unfold read_loop_iter, read_loop_try. run_method.
  unfold after, with_trace; simpl. rewrite <- !app_assoc. reflexivity.
Qed.

(** The [read] of a pass raising a [SerialException]. *)
Lemma read_loop_iter_read_fails s w h n d1 size d2 d3 :
  is_reading s = true -> is_connected s = true -> serial_conn s = Some h ->
  t_in_waiting T h (dev w) = (Returned n, d1) -> (0 < n)%Z ->
  t_in_waiting T h d1 = (Returned size, d2) ->
  t_read T h size d2 = (Raised SerialException, d3) ->
  read_loop_iter T (s, w) =
    (Returned (Some SerialFailure),
     (set_is_connected false s,
      after w d3 [CallInWaiting h (Returned n);
                  CallInWaiting h (Returned size);
                  CallRead h size (Raised SerialException);
                  Log ERROR (MsgReadError SerialException)])).
Proof.
  intros Hr Hc Hh Hp Hn Hp2 Hrd. apply Z.ltb_lt in Hn.
  unfold read_loop_iter, read_loop_try. run_method.
  unfold after, with_trace; simpl. rewrite <- !app_assoc. reflexivity.
Qed.

(** A pass that delivers a chunk to the queue and to the listener. *)
Lemma read_loop_iter_delivers s w h n d1 size d2 b data d3 f r d4 :
  is_reading s = true -> is_connected s = true -> serial_conn s = Some h ->
  callback s = Some f ->
  t_in_waiting T h (dev w) = (Returned n, d1) -> (0 < n)%Z ->
  t_in_waiting T h d1 = (Returned size, d2) ->
  t_read T h size d2 = (Returned (b :: data), d3) ->
  t_listener T f (b :: data) d3 = (r, d4) ->
  data_queue (fst (snd (read_loop_iter T (s, w))))
    = data_queue s ++ [b :: data]
  /\ exists evs,
       trace (snd (snd (read_loop_iter T (s, w)))) =
         trace w ++ [CallInWaiting h (Returned n);
                     CallInWaiting h (Returned size);
                     CallRead h size (Returned (b :: data));
                     CallListener f (b :: data) r] ++ evs.
Proof.
  intros Hr Hc Hh Hf Hp Hn Hp2 Hrd Hl. apply Z.ltb_lt in Hn.
  unfold read_loop_iter, read_loop_try. run_method.
  destruct r as [[] | []]; simpl; split; try reflexivity;
    eexists; rewrite <- !app_assoc; simpl; reflexivity.
Qed.

(** C1. Run [_read_loop] for any number of passes over any transport,
    with a listener [f] registered.  The loop returns; the queue grows by
    exactly the non-empty chunks its [read] calls returned, in the order
    they returned them; the listener was called with exactly those chunks
    in that order (each chunk is on the queue before the listener sees
    it, so this holds also when the listener raises).  So when the chunks
    read were [C1], [C2], [C3] and the queue was empty before, four calls
    of [get_queued_data] return [C1], [C2], [C3] and then [None]. *)
Theorem reader_delivers_in_order :
  forall (fuel : nat) (s : SerialReader) (w : World W) (f : listener),
    callback s = Some f ->
    exists x s' d evs,
      _read_loop T fuel (s, w) = (Returned x, (s', after w d evs))
      /\ data_queue s' = data_queue s ++ chunks_read evs
      /\ chunks_heard f evs = chunks_read evs
      /\ (forall C1 C2 C3 : bytes,
            data_queue s = [] ->
            chunks_read evs = [C1; C2; C3] ->
            fst (drain 4 (s', after w d evs)) =
              [Returned (Some C1); Returned (Some C2); Returned (Some C3);
               Returned None]).
Proof.
  intros fuel s w f Hf.
  destruct (read_loop_frame T fuel s w) as (x & s' & d & evs & E & F).
  exists x, s', d, evs. split; [exact E |].
  split; [exact (pf_queue F) |]. split; [exact (pf_heard F Hf) |].
  intros C1 C2 C3 Hq Hch.
  assert (Hq' : data_queue s' = [C1; C2; C3]).
  { rewrite (pf_queue F), Hq, Hch. reflexivity. }
  change 4 with (3 + 1). rewrite drain_app.
  change 3 with (List.length [C1; C2; C3]).
  rewrite (drain_queue s' (after w d evs) Hq'). reflexivity.
Qed.

(** One step of the producer or of the consumer. *)
Lemma perform_delivery a s w :
  is_delivery a = true ->
  exists r s1 w1 evs,
    perform T a (s, w) = (r, (s1, w1))
    /\ trace w1 = trace w ++ evs
    /\ collect popped_of [r] ++ data_queue s1
       = data_queue s ++ chunks_read evs.
Proof.
  destruct a; simpl; try discriminate; intros _; unfold lift, bind, ret.
  - destruct (data_queue s) as [| c q] eqn:Hq.
    + rewrite (get_queued_data_empty s w Hq).
      exists (Returned (ResBytes None)), s, w, [].
      split; [reflexivity |]. split; [symmetry; apply app_nil_r |].
      unfold chunks_read; simpl. rewrite ?app_nil_r. assumption.
    + rewrite (get_queued_data_cons s w Hq).
      exists (Returned (ResBytes (Some c))), (set_data_queue q s), w, [].
      split; [reflexivity |]. split; [symmetry; apply app_nil_r |].
      unfold chunks_read; simpl. rewrite ?app_nil_r. reflexivity.
  - unfold reader_step. simpl.
    destruct (existsb (Nat.eqb t) (threads w)).
    + destruct (read_loop_iter_frame T s w) as (x & s' & d & evs & E & F).
      rewrite E.
      destruct x; do 4 eexists;
        (split; [reflexivity |]); (split; [reflexivity |]);
        simpl; apply (pf_queue F).
    + exists (Returned (ResLoop (Some ConditionFalse))), s, w, [].
      split; [reflexivity |]. split; [symmetry; apply app_nil_r |].
      unfold chunks_read; simpl. rewrite app_nil_r. reflexivity.
Qed.

(** X14. However passes of the reader threads and calls of
    [get_queued_data] interleave, what was handed to the caller followed
    by what is still queued is what was queued at the start followed by
    the chunks read, in the order they were read: the queue loses
    nothing, repeats nothing and reorders nothing. *)
Lemma delivery_in_order_interleaved : forall (l : list action) s w,
  forallb is_delivery l = true ->
  exists rs s' w' evs,
    run T l (s, w) = (rs, (s', w'))
    /\ trace w' = trace w ++ evs
    /\ collect popped_of rs ++ data_queue s'
       = data_queue s ++ chunks_read evs.
Proof.
  induction l as [| a l IH]; intros s w Hl; simpl in *.
  - exists [], s, w, []. split; [reflexivity |].
    split; [symmetry; apply app_nil_r |].
    unfold chunks_read; simpl. rewrite app_nil_r. reflexivity.
  - apply andb_true_iff in Hl. destruct Hl as [Ha Hl].
    destruct (perform_delivery a s w Ha) as (r & s1 & w1 & evs1 & E1 & Tr1 & Q1).
    rewrite E1.
    destruct (IH s1 w1 Hl) as (rs & s2 & w2 & evs2 & E2 & Tr2 & Q2).
    rewrite E2.
    exists (r :: rs), s2, w2, (evs1 ++ evs2). split; [reflexivity |].
    split; [rewrite Tr2, Tr1, app_assoc; reflexivity |].
    change (r :: rs) with ([r] ++ rs).
    unfold chunks_read in *. rewrite !collect_app, <- !app_assoc, Q2.
    rewrite !app_assoc, Q1. reflexivity.
Qed.

(** A pass that ends in one of the two [break]s. *)
Lemma pass_failed s s' x evs :
  pass_frame s s' (Some x) evs -> x <> ConditionFalse ->
  is_reading s = true
  /\ is_reading s' = true
  /\ is_connected s' = match x with SerialFailure => false | _ => true end.
Proof.
  intros F Hx.
  assert (Hfail : Some x = Some SerialFailure \/ Some x = Some UnexpectedFailure).
  { destruct x; [contradiction | left | right]; reflexivity. }
  destruct (pf_failed F Hfail) as [Hr Hc].
  split; [exact Hr |].
  split; [rewrite (pf_reading F); exact Hr |].
  rewrite (pf_connected F). destruct x; try reflexivity; exact Hc.
Qed.

Lemma reader_step_failed t s w x s' w' :
  In t (threads w) ->
  reader_step T t (s, w) = (Returned (Some x), (s', w')) ->
  x <> ConditionFalse ->
  ~ In t (threads w')
  /\ is_reading s = true
  /\ is_reading s' = true
  /\ is_connected s' = match x with SerialFailure => false | _ => true end
  /\ next_thread w' = next_thread w.
Proof.
  intros Hin Hstep Hx.
  destruct (reader_step_frame t s w Hin) as (x1 & s1 & d & evs & E & F).
  rewrite E in Hstep. inversion Hstep; subst. clear Hstep.
  destruct (pass_failed F Hx) as (Hr & Hr' & Hc).
  split; [apply remove_thread_gone |]. auto.
Qed.

(** C8 (as the code has it).  When [_read_loop] is left through one of
    its two [break]s, the loop was running, [is_reading] is left as it
    was, that is true, and [is_connected] is false after a
    [SerialException] and still true after any other exception.  The
    thread that ran the loop is gone without any call by the caller, and
    no thread was started. *)
Theorem reader_failure_ends_task :
  forall (s : SerialReader) (w : World W)
         (x : loop_exit) (s' : SerialReader) (w' : World W),
    x <> ConditionFalse ->
    (forall fuel,
       _read_loop T fuel (s, w) = (Returned (Some x), (s', w')) ->
       is_reading s' = true
       /\ is_connected s' =
            match x with SerialFailure => false | _ => true end
       /\ threads w' = threads w)
    /\ (forall t,
         In t (threads w) ->
         reader_step T t (s, w) = (Returned (Some x), (s', w')) ->
         ~ In t (threads w')
         /\ is_reading s' = true
         /\ is_connected s' =
              match x with SerialFailure => false | _ => true end
         /\ next_thread w' = next_thread w).
Proof.
  intros s w x s' w' Hx. split.
  - intros fuel Hloop.
    destruct (read_loop_frame T fuel s w) as (x1 & s1 & d & evs & E & F).
    rewrite E in Hloop. inversion Hloop; subst. clear Hloop.
    destruct (pass_failed F Hx) as (Hr & Hr' & Hc). auto.
  - intros t Hin Hstep.
    destruct (reader_step_failed t s w Hin Hstep Hx) as (H1 & H2 & H3 & H4 & H5).
    auto.
Qed.

(** A transport-level read failure inside a pass of a running thread
    ends the loop through the first [break]. *)
Lemma reader_step_read_failed t s w r s1 w1 :
  In t (threads w) ->
  reader_step T t (s, w) = (r, (s1, w1)) ->
  existsb read_failed (skipn (List.length (trace w)) (trace w1)) = true ->
  r = Returned (Some SerialFailure).
Proof.
  intros Hin Hstep Hfail.
  destruct (reader_step_frame t s w Hin) as (x & s' & d & evs & E & F).
  rewrite E in Hstep. inversion Hstep; subst. clear Hstep.
  assert (Htr : skipn (List.length (trace w))
                  (trace (match x with
                          | Some _ => remove_thread t (after w d evs)
                          | None => after w d evs
                          end)) = evs).
  { destruct x; simpl;
      rewrite skipn_app, skipn_all, Nat.sub_diag; reflexivity. }
  rewrite Htr in Hfail. rewrite (pf_read_failed F Hfail). reflexivity.
Qed.

(** C3 (as the code has it).  When the pending-byte query or the read
    raises a [SerialException] inside a pass of the reader thread, the
    pass ends the loop: [is_connected] is false and the thread is gone,
    with no call by the caller, and [is_reading] is still true.  From
    there [start_reading] only logs the error.  After a [connect] that
    succeeds, [start_reading] is refused with the warning as long as
    [is_reading] is still true; once [stop_reading] has run, before or
    after that [connect], it starts a new thread. *)
Theorem transport_failure_then_restart :
  forall (t : thread_id) (s : SerialReader) (w : World W)
         (r : outcome (option loop_exit))
         (s1 : SerialReader) (w1 : World W),
    In t (threads w) ->
    reader_step T t (s, w) = (r, (s1, w1)) ->
    existsb read_failed (events_since w w1) = true ->
    (r = Returned (Some SerialFailure)
     /\ is_connected s1 = false
     /\ ~ In t (threads w1)
     /\ is_reading s1 = true)
    /\ start_reading (s1, w1) =
         (Returned tt, (s1, with_trace w1 (Log ERROR MsgNotConnected)))
    /\ (forall s2 w2,
          connect T (s1, w1) = (Returned true, (s2, w2)) ->
          start_reading (s2, w2) =
            (Returned tt, (s2, with_trace w2 (Log WARNING MsgAlreadyReading)))
          /\ threads (snd (snd (start_reading (snd (stop_reading (s2, w2))))))
             = threads w1 ++ [next_thread w1])
    /\ (forall s2 w2,
          connect T (snd (stop_reading (s1, w1))) = (Returned true, (s2, w2)) ->
          threads (snd (snd (start_reading (s2, w2))))
            = threads w1 ++ [next_thread w1]).
Proof.
  intros t s w r s1 w1 Hin Hstep Hfail.
  pose proof (reader_step_read_failed t s w Hin Hstep Hfail) as ->.
  assert (Hx : SerialFailure <> ConditionFalse) by discriminate.
  destruct (reader_step_failed t s w Hin Hstep Hx) as (Hgone & _ & Hr & Hc & _).
  split; [auto |].
  split; [apply start_reading_not_connected; assumption |].
  split.
  - intros s2 w2 Hconn.
    destruct (connect_true T s1 w1 Hconn) as (-> & Hth & Hnt & _).
    split.
    + apply start_reading_already; simpl; auto.
    + rewrite stop_reading_eq. cbn [snd].
      rewrite start_reading_spawns by reflexivity. simpl.
      rewrite Hth, Hnt. reflexivity.
  - intros s2 w2 Hconn. rewrite stop_reading_eq in Hconn. cbn [snd] in Hconn.
    destruct (connect_true T _ _ Hconn) as (-> & Hth & Hnt & _).
    rewrite start_reading_spawns by reflexivity. simpl.
    rewrite Hth, Hnt. reflexivity.
Qed.

End Reader.

(** ** What any action may do *)

Section Frame.

Variable W : Type.
Variable T : Transport W.

Implicit Types (s : SerialReader) (w : World W) (st : State W).

Lemma events_since_app w w' evs :
  trace w' = trace w ++ evs -> events_since w w' = evs.
Proof.
  intros H. unfold events_since. rewrite H.
  rewrite skipn_app, skipn_all, Nat.sub_diag. reflexivity.
Qed.

(** Case analysis on everything a method body inspects. *)
Ltac crunch :=
  repeat (simpl;
          match goal with
          | |- context [match ?c with _ => _ end] =>
            lazymatch c with
            | context [match _ with _ => _ end] => fail
            | _ => destruct c eqn:?
            end
          end).

Ltac close_act :=
  do 4 eexists; split; [reflexivity |]; split;
  [ simpl; rewrite <- ?app_assoc; simpl;
    first [reflexivity | symmetry; apply app_nil_r]
  | constructor; simpl;
    [ lia
    | first [left; reflexivity | right; eexists; split; [reflexivity | lia]]
    | intros ?;
      first [left; congruence | right; eexists; split; [reflexivity | lia]]
    | intros ? Hcl; rewrite ?orb_false_r in Hcl; try discriminate;
      apply Nat.eqb_eq in Hcl; subst; left; congruence ] ].

Lemma close_of_is_close h evs :
  existsb (is_close_of h) evs = true -> existsb is_close evs = true.
Proof.
  rewrite !existsb_exists. intros (e & Hin & He). exists e. split; [assumption |].
  destruct e; simpl in *; try discriminate; reflexivity.
Qed.

(** A pass of a reader thread creates no connection object, closes
    none, and can only clear [is_connected]. *)
Lemma pass_act_frame s s' x evs nh :
  pass_frame s s' x evs -> act_frame s s' nh nh evs.
Proof.
  intros F. constructor.
  - lia.
  - left. apply (pf_conn F).
  - intros Hc. left. rewrite (pf_connected F) in Hc.
    destruct x as [[] |]; try assumption; discriminate.
  - intros h Hcl. apply close_of_is_close in Hcl.
    rewrite (pf_no_close F) in Hcl. discriminate.
Qed.

Lemma perform_frame a s w :
  exists r s' w' evs,
    perform T a (s, w) = (r, (s', w'))
    /\ trace w' = trace w ++ evs
    /\ act_frame s s' (next_handle w) (next_handle w') evs.
Proof.
  destruct a; unfold perform, lift.
  - unfold connect. unfold_monad. crunch; close_act.
  - unfold disconnect. unfold_monad. crunch; close_act.
  - unfold_monad. crunch; close_act.
  - unfold_monad. crunch; close_act.
  - unfold_monad. crunch; close_act.
  - unfold read_line. unfold_monad. crunch; close_act.
  - unfold read_bytes. unfold_monad. crunch; close_act.
  - unfold get_queued_data. unfold_monad. crunch; close_act.
  - unfold write. unfold_monad. crunch; close_act.
  - unfold get_port_info. unfold_monad. crunch; close_act.
  - unfold bind, ret, reader_step. simpl.
    destruct (existsb (Nat.eqb t) (threads w)).
    + destruct (read_loop_iter_frame T s w) as (x & s' & d & evs & E & F).
      rewrite E.
      destruct x as [e |]; do 4 eexists;
        (split; [reflexivity |]); (split; [reflexivity |]);
        simpl; eapply pass_act_frame; eassumption.
    + exists (Returned (ResLoop (Some ConditionFalse))), s, w, [].
      split; [reflexivity |]. split; [symmetry; apply app_nil_r |].
      eapply pass_act_frame. apply pass_frame_none.
Qed.

Lemma act_frame_then s s1 s2 nh nh1 nh2 evs1 evs2 :
  act_frame s s1 nh nh1 evs1 ->
  act_frame s1 s2 nh1 nh2 evs2 ->
  act_frame s s2 nh nh2 (evs1 ++ evs2).
Proof.
  intros F1 F2.
  pose proof (af_handles F1) as H1. pose proof (af_handles F2) as H2.
  assert (Hconn : serial_conn s2 = serial_conn s
                  \/ exists h, serial_conn s2 = Some h /\ nh <= h < nh2).
  { destruct (af_conn F2) as [E2 | (h & E2 & B2)].
    - destruct (af_conn F1) as [E1 | (h & E1 & B1)].
      + left. congruence.
      + right. exists h. split; [congruence | lia].
    - right. exists h. split; [assumption | lia]. }
  constructor.
  - lia.
  - exact Hconn.
  - intros Hc. destruct (af_connected F2 Hc) as [Hc1 | (h & E2 & B2)].
    + destruct (af_connected F1 Hc1) as [Hc0 | (h & E1 & B1)].
      * left. assumption.
      * right. destruct (af_conn F2) as [E2 | (h' & E2 & B2)].
        -- exists h. split; [congruence | assumption].
        -- exists h'. split; [assumption | lia].
    + right. exists h. split; [assumption | lia].
  - intros h Hcl. rewrite existsb_app in Hcl.
    apply orb_true_iff in Hcl. destruct Hcl as [Hcl | Hcl].
    + apply (af_close F1). assumption.
    + destruct (af_close F2 h Hcl) as [E | B]; [| right; lia].
      destruct (af_conn F1) as [E1 | (h' & E1 & B1)].
      * left. congruence.
      * right. assert (h' = h) by congruence. lia.
Qed.

Lemma act_frame_nothing s nh : act_frame s s nh nh [].
Proof.
  constructor; auto. simpl. discriminate.
Qed.

(** Whatever the schedule. *)
Lemma run_frame : forall (l : list action) s w,
  exists rs s' w' evs,
    run T l (s, w) = (rs, (s', w'))
    /\ trace w' = trace w ++ evs
    /\ act_frame s s' (next_handle w) (next_handle w') evs.
Proof.
  induction l as [| a l IH]; intros s w; simpl.
  - exists [], s, w, []. split; [reflexivity |].
    split; [symmetry; apply app_nil_r | apply act_frame_nothing].
  - destruct (perform_frame a s w) as (r & s1 & w1 & evs1 & E1 & Tr1 & F1).
    rewrite E1.
    destruct (IH s1 w1) as (rs & s2 & w2 & evs2 & E2 & Tr2 & F2).
    rewrite E2.
    exists (r :: rs), s2, w2, (evs1 ++ evs2). split; [reflexivity |].
    split; [rewrite Tr2, Tr1, app_assoc; reflexivity |].
    eapply act_frame_then; eassumption.
Qed.

(** The methods keep the object consistent. *)
Lemma frame_consistent s w s' w' evs :
  act_frame s s' (next_handle w) (next_handle w') evs ->
  consistent (s, w) -> consistent (s', w').
Proof.
  intros F [Hc Hh]. simpl in *. split; simpl.
  - intros Hc'. destruct (af_conn F) as [E | (h & E & B)].
    + destruct (af_connected F Hc') as [Hc0 | (h & E' & _)].
      * rewrite E. apply Hc. assumption.
      * congruence.
    + congruence.
  - intros h Hs. pose proof (af_handles F).
    destruct (af_conn F) as [E | (h' & E & B)].
    + rewrite E in Hs. apply Hh in Hs. lia.
    + assert (h' = h) by congruence. lia.
Qed.

Lemma run_consistent (l : list action) st :
  consistent st -> consistent (snd (run T l st)).
Proof.
  destruct st as [s w]. intros Hc.
  destruct (run_frame l s w) as (rs & s' & w' & evs & E & Tr & F).
  rewrite E. simpl. eapply frame_consistent; eassumption.
Qed.

Lemma fresh_consistent (d : W) p b t bs pa sb :
  consistent (init p b t bs pa sb, fresh_world d).
Proof.
  split; simpl; intros; discriminate.
Qed.

(** A connection object that the session no longer holds is never
    closed. *)
Lemma frame_abandoned s w s' w' evs h0 :
  act_frame s s' (next_handle w) (next_handle w') evs ->
  serial_conn s <> Some h0 -> h0 < next_handle w ->
  existsb (is_close_of h0) evs = false.
Proof.
  intros F Hne Hlt. destruct (existsb (is_close_of h0) evs) eqn:Hcl; [| reflexivity].
  destruct (af_close F h0 Hcl) as [E | B]; [contradiction | lia].
Qed.

End Frame.

(** ** The queue across the lifecycle, and reconnecting *)

Section Claims.

Variable W : Type.
Variable T : Transport W.

Implicit Types (s : SerialReader) (w : World W) (st : State W).

Ltac cases :=
  repeat (simpl;
          match goal with
          | |- context [match ?c with _ => _ end] =>
            lazymatch c with
            | context [match _ with _ => _ end] => fail
            | _ => destruct c eqn:?
            end
          end).

Lemma connect_queue s w :
  data_queue (fst (snd (connect T (s, w)))) = data_queue s.
Proof.
  unfold connect. unfold_monad. cases; reflexivity.
Qed.

Lemma disconnect_queue s w :
  data_queue (fst (snd (disconnect T (s, w)))) = data_queue s.
Proof.
  unfold disconnect. unfold_monad. cases; reflexivity.
Qed.

Lemma start_reading_queue s w :
  data_queue (fst (snd (start_reading (s, w)))) = data_queue s.
Proof.
  unfold_monad. cases; reflexivity.
Qed.

Lemma stop_reading_queue s w :
  data_queue (fst (snd (stop_reading (s, w)))) = data_queue s.
Proof.
  rewrite stop_reading_eq. reflexivity.
Qed.

Lemma snd_lift {A} (f : A -> result) (m : M W A) st :
  snd (lift f m st) = snd (m st).
Proof.
  unfold lift, bind, ret. destruct (m st) as [[a | e] st']; reflexivity.
Qed.

(** A lifecycle action, a pass of a reader thread included, can only add
    to the end of the queue. *)
Lemma perform_queue a s w :
  is_lifecycle a = true ->
  exists more,
    data_queue (fst (snd (perform T a (s, w)))) = data_queue s ++ more.
Proof.
  destruct a; simpl; try discriminate; intros _; rewrite snd_lift.
  - exists []. rewrite connect_queue, app_nil_r. reflexivity.
  - exists []. rewrite disconnect_queue, app_nil_r. reflexivity.
  - exists []. rewrite start_reading_queue, app_nil_r. reflexivity.
  - exists []. rewrite stop_reading_queue, app_nil_r. reflexivity.
  - unfold reader_step. simpl.
    destruct (existsb (Nat.eqb t) (threads w)).
    + destruct (read_loop_iter_frame T s w) as (x & s' & d & evs & E & F).
      rewrite E. exists (chunks_read evs).
      destruct x; simpl; apply (pf_queue F).
    + exists []. simpl. rewrite app_nil_r. reflexivity.
Qed.

Lemma run_queue : forall (l : list action) s w,
  forallb is_lifecycle l = true ->
  exists more,
    data_queue (fst (snd (run T l (s, w)))) = data_queue s ++ more.
Proof.
  induction l as [| a l IH]; intros s w Hl; simpl in *.
  - exists []. rewrite app_nil_r. reflexivity.
  - apply andb_true_iff in Hl. destruct Hl as [Ha Hl].
    destruct (perform_queue a s w Ha) as (m1 & E1).
    destruct (perform T a (s, w)) as [r [s1 w1]]. simpl in E1.
    destruct (IH s1 w1 Hl) as (m2 & E2).
    destruct (run T l (s1, w1)) as [rs [s2 w2]]. simpl in *.
    exists (m1 ++ m2). rewrite E2, E1, app_assoc. reflexivity.
Qed.

(** Draining as many chunks as a prefix of the queue holds. *)
Lemma drain_prefix : forall (q more : list bytes) s w,
  data_queue s = q ++ more ->
  fst (drain (List.length q) (s, w)) = map (fun c => Returned (Some c)) q.
Proof.
  induction q as [| c q IH]; intros more s w Hq; simpl.
  - reflexivity.
  - rewrite (get_queued_data_cons (c := c) (q := q ++ more) s w Hq).
    specialize (IH more (set_data_queue (q ++ more) s) w eq_refl).
    destruct (drain (List.length q) (set_data_queue (q ++ more) s, w)).
    simpl in *. rewrite IH. reflexivity.
Qed.

(** C9. None of [connect], [disconnect], [start_reading] and
    [stop_reading] touches the queue.  And along any schedule of these
    four methods and of passes of the reader threads they start and
    stop, the queue only grows at its end: the chunks queued before are
    still handed back first and in order by [get_queued_data]. *)
Theorem lifecycle_keeps_queue :
  forall (s : SerialReader) (w : World W),
    (data_queue (fst (snd (connect T (s, w)))) = data_queue s
     /\ data_queue (fst (snd (disconnect T (s, w)))) = data_queue s
     /\ data_queue (fst (snd (start_reading (s, w)))) = data_queue s
     /\ data_queue (fst (snd (stop_reading (s, w)))) = data_queue s)
    /\ (forall l : list action,
          forallb is_lifecycle l = true ->
          (exists more,
             data_queue (fst (snd (run T l (s, w)))) = data_queue s ++ more)
          /\ fst (drain (List.length (data_queue s)) (snd (run T l (s, w))))
             = map (fun c => Returned (Some c)) (data_queue s)).
Proof.
  intros s w. split.
  - split; [apply connect_queue |].
    split; [apply disconnect_queue |].
    split; [apply start_reading_queue | apply stop_reading_queue].
  - intros l Hl. destruct (run_queue l s w Hl) as (more & E).
    split; [exists more; exact E |].
    destruct (run T l (s, w)) as [rs [s' w']]. simpl in *.
    apply (drain_prefix (data_queue s) more s' w' E).
Qed.

Lemma events_since_two w w1 w2 evs1 evs2 :
  trace w1 = trace w ++ evs1 -> trace w2 = trace w1 ++ evs2 ->
  events_since w w2 = evs1 ++ evs2.
Proof.
  intros H1 H2. apply events_since_app. rewrite H2, H1, app_assoc. reflexivity.
Qed.

(** A connection object the session does not hold is never closed by
    it, whatever the schedule. *)
Lemma run_never_closes s w h0 (l : list action) :
  serial_conn s <> Some h0 -> h0 < next_handle w ->
  existsb (is_close_of h0)
    (events_since w (snd (snd (run T l (s, w))))) = false.
Proof.
  intros Hne Hlt.
  destruct (run_frame T l s w) as (rs & s2 & w2 & evs2 & E2 & Tr2 & F2).
  rewrite E2. simpl. rewrite (@events_since_app _ w w2 evs2 Tr2).
  eapply frame_abandoned; eassumption.
Qed.

(** [connect] on a session that holds [h0], the constructor returning:
    the finaliser closes [h0] between the constructor and the test of
    [is_open]. *)
Lemma connect_dropping_returned s w h0 d r d' :
  serial_conn s = Some h0 ->
  t_open T (settings_of s) (next_handle w) (dev w) = (Returned tt, d) ->
  t_close T h0 d = (r, d') ->
  connect_dropping T (s, w) =
    (Returned (t_is_open T (next_handle w) d'),
     (if t_is_open T (next_handle w) d'
      then set_is_connected true (set_serial_conn (Some (next_handle w)) s)
      else set_serial_conn (Some (next_handle w)) s,
      after_open w d'
        [CallSerial (settings_of s) (next_handle w) (Returned tt);
         CallClose h0 r;
         Log (if t_is_open T (next_handle w) d' then INFO else ERROR)
             (if t_is_open T (next_handle w) d'
              then MsgConnected (port s) (baudrate s)
              else MsgOpenFailed (port s))])).
Proof.
  intros Hh Ho Hc. unfold connect_dropping, rebind_serial_conn, finalise.
  run_method.
  destruct r as [[] | e]; simpl;
    destruct (t_is_open T (next_handle w) d'); simpl;
    unfold after_open, with_trace; simpl; rewrite <- !app_assoc; reflexivity.
Qed.

(** The constructor raising: nothing is rebound, nothing finalised. *)
Lemma connect_dropping_raised s w e d :
  t_open T (settings_of s) (next_handle w) (dev w) = (Raised e, d) ->
  connect_dropping T (s, w) = connect T (s, w).
Proof.
  intros Ho. rewrite (connect_raised T s w Ho).
  unfold connect_dropping, rebind_serial_conn, finalise. run_method.
  destruct e; simpl;
    unfold after_open, with_trace; simpl; rewrite <- !app_assoc; reflexivity.
Qed.

(** C10 (as the code has it).  [connect] on a session that is connected
    and holds the handle [h0] makes no [close] call of its own, whatever
    the constructor does, and tests neither the state of the session nor
    [h0].  When the constructor returns the new connection object, that
    object replaces [h0] as the stored handle.  [h0] is not left open by
    that: the assignment drops the session's reference to it and its
    finaliser calls its [close], once, right after the constructor and
    before the new object is tested; whatever that [close] raises is
    discarded.  From then on the session no longer refers to [h0] and no
    method, in any schedule, calls [close] on it again.  When the
    constructor raises, nothing is rebound: [h0] stays the stored handle,
    it is not closed, and the session stays connected. *)
Theorem connect_drops_old_handle :
  forall (s : SerialReader) (w : World W) (h0 : handle),
    is_connected s = true -> serial_conn s = Some h0 -> h0 < next_handle w ->
    existsb is_close (events_since w (snd (snd (connect T (s, w))))) = false
    /\ (forall d r d',
          t_open T (settings_of s) (next_handle w) (dev w) = (Returned tt, d) ->
          t_close T h0 d = (r, d') ->
          serial_conn (fst (snd (connect_dropping T (s, w))))
            = Some (next_handle w)
          /\ next_handle w <> h0
          /\ fst (connect_dropping T (s, w))
             = Returned (t_is_open T (next_handle w) d')
          /\ filter is_transport_call
               (events_since w (snd (snd (connect_dropping T (s, w)))))
             = [CallSerial (settings_of s) (next_handle w) (Returned tt);
                CallClose h0 r]
          /\ dev (snd (snd (connect_dropping T (s, w)))) = d'
          /\ forall l : list action,
               existsb (is_close_of h0)
                 (events_since (snd (snd (connect_dropping T (s, w))))
                    (snd (snd (run T l (snd (connect_dropping T (s, w)))))))
               = false)
    /\ (forall e d,
          t_open T (settings_of s) (next_handle w) (dev w) = (Raised e, d) ->
          connect_dropping T (s, w) = connect T (s, w)
          /\ serial_conn (fst (snd (connect_dropping T (s, w)))) = Some h0
          /\ is_connected (fst (snd (connect_dropping T (s, w)))) = true
          /\ existsb is_close
               (events_since w (snd (snd (connect_dropping T (s, w)))))
             = false).
Proof.
  intros s w h0 Hc Hh Hlt. split; [| split].
  - destruct (t_open T (settings_of s) (next_handle w) (dev w))
      as [[[] | e] d] eqn:Ho.
    + destruct (t_is_open T (next_handle w) d) eqn:Hi.
      * rewrite (connect_opened T s w Ho Hi). simpl.
        erewrite events_since_app by reflexivity. reflexivity.
      * rewrite (connect_not_open T s w Ho Hi). simpl.
        erewrite events_since_app by reflexivity. reflexivity.
    + rewrite (connect_raised T s w Ho). simpl.
      erewrite events_since_app by reflexivity. reflexivity.
  - intros d r d' Ho Hcl.
    rewrite (connect_dropping_returned s w Hh Ho Hcl). cbn [fst snd].
    split.
    { destruct (t_is_open T (next_handle w) d'); reflexivity. }
    split; [lia |]. split; [reflexivity |]. split.
    { erewrite events_since_app by reflexivity.
      destruct (t_is_open T (next_handle w) d'); reflexivity. }
    split; [reflexivity |].
    intros l. apply run_never_closes.
    + destruct (t_is_open T (next_handle w) d'); simpl;
        intros H; injection H as H; lia.
    + simpl. lia.
  - intros e d Ho.
    rewrite (connect_dropping_raised s w Ho), (connect_raised T s w Ho). simpl.
    split; [reflexivity |]. split; [assumption |]. split; [assumption |].
    erewrite events_since_app by reflexivity. reflexivity.
Qed.

End Claims.

(** ** Which errors reach the caller *)

Section Errors.

Variable W : Type.
Variable T : Transport W.

Implicit Types (s : SerialReader) (w : World W) (st : State W).

Ltac cases :=
  repeat (simpl;
          match goal with
          | |- context [match ?c with _ => _ end] =>
            lazymatch c with
            | context [match _ with _ => _ end] => fail
            | _ => destruct c eqn:?
            end
          end).

Lemma connect_returns st : raises (fst (connect T st)) = false.
Proof.
  destruct st as [s w]. unfold connect. unfold_monad. cases; reflexivity.
Qed.

Lemma set_callback_returns f st : raises (fst (set_callback f st)) = false.
Proof. reflexivity. Qed.

Lemma start_reading_returns st : raises (fst (start_reading st)) = false.
Proof.
  destruct st as [s w]. unfold_monad. cases; reflexivity.
Qed.

Lemma stop_reading_returns st : raises (fst (stop_reading st)) = false.
Proof.
  destruct st as [s w]. rewrite stop_reading_eq. reflexivity.
Qed.

Lemma read_line_catches_serial st :
  fst (read_line T st) <> Raised SerialException.
Proof.
  destruct st as [s w]. unfold read_line. unfold_monad. cases; discriminate.
Qed.

Lemma read_bytes_catches_serial size st :
  fst (read_bytes T size st) <> Raised SerialException.
Proof.
  destruct st as [s w]. unfold read_bytes. unfold_monad. cases; discriminate.
Qed.

Lemma write_catches_serial data st :
  fst (write T data st) <> Raised SerialException.
Proof.
  destruct st as [s w]. unfold write. unfold_monad. cases; discriminate.
Qed.

Lemma read_line_propagates s w h e d :
  is_connected s = true -> serial_conn s = Some h ->
  e <> SerialException ->
  t_readline T h (dev w) = (Raised e, d) ->
  read_line T (s, w) =
    (Raised e, (s, after w d [CallReadline h (Raised e)])).
Proof.
  intros Hc Hh He Hl. unfold read_line. run_method.
  destruct e; try contradiction; reflexivity.
Qed.

Lemma read_bytes_propagates s w size h e d :
  is_connected s = true -> serial_conn s = Some h ->
  e <> SerialException ->
  t_read T h size (dev w) = (Raised e, d) ->
  read_bytes T size (s, w) =
    (Raised e, (s, after w d [CallRead h size (Raised e)])).
Proof.
  intros Hc Hh He Hl. unfold read_bytes. run_method.
  destruct e; try contradiction; reflexivity.
Qed.

Lemma write_propagates s w data h e d :
  is_connected s = true -> serial_conn s = Some h ->
  e <> SerialException ->
  t_write T h data (dev w) = (Raised e, d) ->
  write T data (s, w) =
    (Raised e, (s, after w d [CallWrite h data (Raised e)])).
Proof.
  intros Hc Hh He Hl. unfold write. run_method.
  destruct e; try contradiction; reflexivity.
Qed.

Lemma read_bytes_serial_error s w size h d :
  is_connected s = true -> serial_conn s = Some h ->
  t_read T h size (dev w) = (Raised SerialException, d) ->
  read_bytes T size (s, w) =
    (Returned None,
     (s, after w d [CallRead h size (Raised SerialException);
                    Log ERROR (MsgReadError SerialException)])).
Proof.
  intros Hc Hh Hl. unfold read_bytes. run_method.
  unfold after, with_trace; simpl. rewrite <- !app_assoc. reflexivity.
Qed.

Lemma write_flush_propagates s w data h n e d1 d2 :
  is_connected s = true -> serial_conn s = Some h ->
  e <> SerialException ->
  t_write T h data (dev w) = (Returned n, d1) ->
  t_flush T h d1 = (Raised e, d2) ->
  write T data (s, w) =
    (Raised e,
     (s, after w d2 [CallWrite h data (Returned n); CallFlush h (Raised e)])).
Proof.
  intros Hc Hh He Hw Hf. unfold write. run_method.
  destruct e; try contradiction;
    unfold after, with_trace; simpl; rewrite <- !app_assoc; reflexivity.
Qed.

Lemma get_port_info_propagates s w h e d :
  serial_conn s = Some h -> t_is_open T h (dev w) = true ->
  t_in_waiting T h (dev w) = (Raised e, d) ->
  get_port_info T (s, w) =
    (Raised e, (s, after w d [CallInWaiting h (Raised e)])).
Proof.
  intros Hh Ho Hl. unfold get_port_info. run_method. reflexivity.
Qed.

(** On a consistent object a method raises only when a call it made on
    the transport raised. *)
Lemma perform_raises a s w :
  consistent (s, w) ->
  raises (fst (perform T a (s, w))) = true ->
  existsb call_raised (events_since w (snd (snd (perform T a (s, w))))) = true.
Proof.
  intros [Hc _]. simpl in Hc.
  destruct a; unfold perform, lift.
  - unfold connect. unfold_monad. cases; discriminate.
  - unfold disconnect. unfold_monad. cases; try discriminate;
      intros _; erewrite events_since_app
        by (simpl; rewrite <- ?app_assoc; reflexivity);
      reflexivity.
  - unfold_monad. cases; discriminate.
  - unfold_monad. cases; discriminate.
  - unfold_monad. cases; discriminate.
  - unfold read_line. unfold_monad. destruct (is_connected s) eqn:Hcs.
    + specialize (Hc eq_refl). cases; try discriminate; try congruence;
        intros _; erewrite events_since_app
          by (simpl; rewrite <- ?app_assoc; reflexivity);
        reflexivity.
    + cases; discriminate.
  - unfold read_bytes. unfold_monad. destruct (is_connected s) eqn:Hcs.
    + specialize (Hc eq_refl). cases; try discriminate; try congruence;
        intros _; erewrite events_since_app
          by (simpl; rewrite <- ?app_assoc; reflexivity);
        reflexivity.
    + cases; discriminate.
  - unfold get_queued_data. unfold_monad. cases; discriminate.
  - unfold write. unfold_monad. destruct (is_connected s) eqn:Hcs.
    + specialize (Hc eq_refl). cases; try discriminate; try congruence;
        intros _; erewrite events_since_app
          by (simpl; rewrite <- ?app_assoc; reflexivity);
        reflexivity.
    + cases; discriminate.
  - unfold get_port_info. unfold_monad. cases; try discriminate;
      intros _; erewrite events_since_app
        by (simpl; rewrite <- ?app_assoc; reflexivity);
      reflexivity.
  - unfold bind, ret, reader_step. simpl.
    destruct (existsb (Nat.eqb t) (threads w)).
    + destruct (read_loop_iter_frame T s w) as (x & s' & d & evs & E & F).
      rewrite E. destruct x; discriminate.
    + discriminate.
Qed.

Lemma get_queued_data_returns st : raises (fst (get_queued_data st)) = false.
Proof.
  destruct st as [s w]. destruct (data_queue s) as [| c q] eqn:Hq.
  - rewrite (get_queued_data_empty s w Hq). reflexivity.
  - rewrite (get_queued_data_cons s w Hq). reflexivity.
Qed.

(** C2 (as the code has it).  [connect], [set_callback], [start_reading],
    [stop_reading] and [get_queued_data] never raise.  [read_line],
    [read_bytes] and [write] turn a [SerialException] raised by the
    transport call they make into their absent or failure result:
    [read_line] and [read_bytes] return [None], [write] returns [False]
    (for its [write] and for its [flush]), each after logging the error;
    so none of them ever raises a [SerialException].  An exception of
    any other class raised by that transport call reaches the caller.
    [disconnect] and [get_port_info] have no handler: whatever [close],
    respectively [in_waiting], raises on an open port reaches the
    caller, and after a [close] that raised [is_connected] is as it was.
    On a consistent object no method raises unless a transport call it
    made raised. *)
Theorem error_policy :
  forall (s : SerialReader) (w : World W),
    (raises (fst (connect T (s, w))) = false
     /\ (forall f, raises (fst (set_callback f (s, w))) = false)
     /\ raises (fst (start_reading (s, w))) = false
     /\ raises (fst (stop_reading (s, w))) = false
     /\ raises (fst (get_queued_data (s, w))) = false)
    /\ (fst (read_line T (s, w)) <> Raised SerialException
        /\ (forall size, fst (read_bytes T size (s, w)) <> Raised SerialException)
        /\ (forall data, fst (write T data (s, w)) <> Raised SerialException))
    /\ (forall h e d,
          is_connected s = true -> serial_conn s = Some h ->
          e <> SerialException ->
          (t_readline T h (dev w) = (Raised e, d) ->
           fst (read_line T (s, w)) = Raised e)
          /\ (forall size,
                t_read T h size (dev w) = (Raised e, d) ->
                fst (read_bytes T size (s, w)) = Raised e)
          /\ (forall data,
                t_write T h data (dev w) = (Raised e, d) ->
                fst (write T data (s, w)) = Raised e))
    /\ (forall h e d,
          serial_conn s = Some h -> t_is_open T h (dev w) = true ->
          (t_close T h (dev w) = (Raised e, d) ->
           fst (disconnect T (s, w)) = Raised e)
          /\ (t_in_waiting T h (dev w) = (Raised e, d) ->
              fst (get_port_info T (s, w)) = Raised e))
    /\ (forall a,
          consistent (s, w) ->
          raises (fst (perform T a (s, w))) = true ->
          existsb call_raised
            (events_since w (snd (snd (perform T a (s, w))))) = true)
    /\ (forall h d,
          is_connected s = true -> serial_conn s = Some h ->
          (t_readline T h (dev w) = (Raised SerialException, d) ->
           read_line T (s, w) =
             (Returned None,
              (s, after w d [CallReadline h (Raised SerialException);
                             Log ERROR (MsgReadError SerialException)])))
          /\ (forall size,
                t_read T h size (dev w) = (Raised SerialException, d) ->
                read_bytes T size (s, w) =
                  (Returned None,
                   (s, after w d [CallRead h size (Raised SerialException);
                                  Log ERROR (MsgReadError SerialException)])))
          /\ (forall data,
                t_write T h data (dev w) = (Raised SerialException, d) ->
                write T data (s, w) =
                  (Returned false,
                   (s, after w d [CallWrite h data (Raised SerialException);
                                  Log ERROR (MsgWriteError SerialException)])))
          /\ (forall data n d1,
                t_write T h data (dev w) = (Returned n, d1) ->
                t_flush T h d1 = (Raised SerialException, d) ->
                write T data (s, w) =
                  (Returned false,
                   (s, after w d [CallWrite h data (Returned n);
                                  CallFlush h (Raised SerialException);
                                  Log ERROR (MsgWriteError SerialException)]))))
    /\ (forall h e d,
          serial_conn s = Some h -> t_is_open T h (dev w) = true ->
          t_close T h (dev w) = (Raised e, d) ->
          is_connected (fst (snd (disconnect T (s, w)))) = is_connected s
          /\ is_reading (fst (snd (disconnect T (s, w)))) = false)
    /\ (forall h e data n d1 d2,
          is_connected s = true -> serial_conn s = Some h ->
          e <> SerialException ->
          t_write T h data (dev w) = (Returned n, d1) ->
          t_flush T h d1 = (Raised e, d2) ->
          fst (write T data (s, w)) = Raised e).
Proof.
  intros s w.
  split; [| split; [| split; [| split; [| split; [| split; [| split]]]]]].
  - split; [apply connect_returns |].
    split; [intros f; apply set_callback_returns |].
    split; [apply start_reading_returns |].
    split; [apply stop_reading_returns | apply get_queued_data_returns].
  - split; [apply read_line_catches_serial |].
    split; [intros size; apply read_bytes_catches_serial
           | intros data; apply write_catches_serial].
  - intros h e d Hc Hh He. split; [| split].
    + intros H. erewrite read_line_propagates by eassumption. reflexivity.
    + intros size H. erewrite read_bytes_propagates by eassumption. reflexivity.
    + intros data H. erewrite write_propagates by eassumption. reflexivity.
  - intros h e d Hh Ho. split.
    + intros H. erewrite disconnect_close_raises by eassumption. reflexivity.
    + intros H. erewrite get_port_info_propagates by eassumption. reflexivity.
  - intros a. apply perform_raises.
  - intros h d Hc Hh. split; [| split; [| split]].
    + intros H. eapply read_line_serial_error; eassumption.
    + intros size H. eapply read_bytes_serial_error; eassumption.
    + intros data H. eapply write_serial_error; eassumption.
    + intros data n d1 Hw Hf. eapply write_flush_serial_error; eassumption.
  - intros h e d Hh Ho H.
    erewrite disconnect_close_raises by eassumption. simpl. auto.
  - intros h e data n d1 d2 Hc Hh He Hw Hf.
    erewrite write_flush_propagates by eassumption. reflexivity.
Qed.

End Errors.

(** * Further properties of the session *)

Section Session_more.

Variable W : Type.
Variable T : Transport W.

Implicit Types (s : SerialReader) (w : World W) (st : State W).

Ltac cases :=
  repeat (simpl;
          match goal with
          | |- context [match ?c with _ => _ end] =>
            lazymatch c with
            | context [match _ with _ => _ end] => fail
            | _ => destruct c eqn:?
            end
          end).

(** X1. [connect] returns [True] exactly when the constructor returned a
    connection object that reports itself open; then the session is
    connected and holds the new object.  Otherwise it returns [False]
    and leaves [is_connected] as it was: a failed attempt never marks a
    session connected, and never marks a connected one disconnected. *)
Theorem connect_outcome :
  forall (s : SerialReader) (w : World W),
    (fst (connect T (s, w)) = Returned true <->
       exists d,
         t_open T (settings_of s) (next_handle w) (dev w) = (Returned tt, d)
         /\ t_is_open T (next_handle w) d = true)
    /\ (fst (connect T (s, w)) = Returned true ->
        is_connected (fst (snd (connect T (s, w)))) = true
        /\ serial_conn (fst (snd (connect T (s, w)))) = Some (next_handle w))
    /\ (fst (connect T (s, w)) <> Returned true ->
        fst (connect T (s, w)) = Returned false
        /\ is_connected (fst (snd (connect T (s, w)))) = is_connected s).
Proof.
  intros s w.
  destruct (t_open T (settings_of s) (next_handle w) (dev w))
    as [[[] | e] d] eqn:Ho.
  - destruct (t_is_open T (next_handle w) d) eqn:Hi.
    + rewrite (connect_opened T s w Ho Hi). simpl.
      split; [| split].
      * split; [intros _; exists d; auto | reflexivity].
      * auto.
      * intros H. contradiction.
    + rewrite (connect_not_open T s w Ho Hi). simpl.
      split; [| split].
      * split; [discriminate |].
        intros (d' & Hd & Hi'). inversion Hd; subst. congruence.
      * discriminate.
      * auto.
  - rewrite (connect_raised T s w Ho). simpl.
    split; [| split].
    + split; [discriminate | intros (d' & Hd & _); discriminate].
    + discriminate.
    + auto.
Qed.

(** X2. Starting from a newly constructed session, after any schedule of
    method calls and reader passes: whenever [is_connected] is true a
    connection object is held, and it is one the constructor made
    earlier.  So a method that raises then does so only because a
    transport call it made raised, never for want of a connection
    object. *)
Theorem reachable_sessions_consistent :
  forall (l : list action) (d : W) (p : string) (b : Z) (t : float)
         (bs : Z) (pa : string) (sb : Z) (a : action),
    consistent (snd (run T l (init p b t bs pa sb, fresh_world d)))
    /\ (raises (fst (perform T a
                       (snd (run T l (init p b t bs pa sb, fresh_world d)))))
        = true ->
        existsb call_raised
          (events_since
             (snd (snd (run T l (init p b t bs pa sb, fresh_world d))))
             (snd (snd (perform T a
                          (snd (run T l (init p b t bs pa sb, fresh_world d)))))))
        = true).
Proof.
  intros l d p b t bs pa sb a.
  pose proof (run_consistent T l (fresh_consistent d p b t bs pa sb)) as Hc.
  split; [exact Hc |].
  destruct (run T l (init p b t bs pa sb, fresh_world d)) as [rs [s' w']].
  simpl in *. apply perform_raises. exact Hc.
Qed.

(** X3. [disconnect] always clears [is_reading].  When no connection
    object is held, or the one held reports itself not open, it does
    nothing more: no call on the transport, and [is_connected] is left
    as it was, true included.  When the object held is open it is closed,
    once; if [close] returns, [is_connected] is cleared and the object
    stays stored; if [close] raises, the exception reaches the caller
    and [is_connected] is left as it was. *)
Theorem disconnect_outcome :
  forall (s : SerialReader) (w : World W),
    is_reading (fst (snd (disconnect T (s, w)))) = false
    /\ (match serial_conn s with
        | Some h => t_is_open T h (dev w) = false
        | None => True
        end ->
        disconnect T (s, w) = stop_reading (s, w)
        /\ is_connected (fst (snd (disconnect T (s, w)))) = is_connected s
        /\ dev (snd (snd (disconnect T (s, w)))) = dev w
        /\ filter is_transport_call
             (events_since w (snd (snd (disconnect T (s, w))))) = [])
    /\ (forall h d,
          serial_conn s = Some h -> t_is_open T h (dev w) = true ->
          t_close T h (dev w) = (Returned tt, d) ->
          fst (disconnect T (s, w)) = Returned tt
          /\ is_connected (fst (snd (disconnect T (s, w)))) = false
          /\ serial_conn (fst (snd (disconnect T (s, w)))) = Some h
          /\ filter is_transport_call
               (events_since w (snd (snd (disconnect T (s, w)))))
             = [CallClose h (Returned tt)])
    /\ (forall h e d,
          serial_conn s = Some h -> t_is_open T h (dev w) = true ->
          t_close T h (dev w) = (Raised e, d) ->
          fst (disconnect T (s, w)) = Raised e
          /\ is_connected (fst (snd (disconnect T (s, w)))) = is_connected s).
Proof.
  intros s w. split; [| split; [| split]].
  - unfold disconnect. unfold_monad. cases; reflexivity.
  - intros H. rewrite (disconnect_idle T s w H), stop_reading_eq. simpl.
    repeat split.
    erewrite events_since_app by reflexivity.
    destruct (read_thread s); reflexivity.
  - intros h d Hh Ho Hc. rewrite (disconnect_closes T s w Hh Ho Hc). simpl.
    repeat split; try assumption.
    erewrite events_since_app by reflexivity.
    destruct (read_thread s); reflexivity.
  - intros h e d Hh Ho Hc. rewrite (disconnect_close_raises T s w Hh Ho Hc).
    simpl. auto.
Qed.

(** X4. Once [stop_reading] has run, the next pass of a reader thread
    finds the loop condition false: the thread ends without a single call
    on the transport or the listener, and the queue is as it was.
    Calling [stop_reading] a second time leaves the object as the first
    call left it. *)
Theorem stopped_reader_takes_nothing :
  forall (t : thread_id) (s : SerialReader) (w : World W),
    In t (threads w) ->
    reader_step T t (snd (stop_reading (s, w)))
      = (Returned (Some ConditionFalse),
         (set_is_reading false s,
          remove_thread t (snd (snd (stop_reading (s, w))))))
    /\ ~ In t (threads (snd (snd (reader_step T t (snd (stop_reading (s, w)))))))
    /\ fst (snd (stop_reading (snd (stop_reading (s, w)))))
       = fst (snd (stop_reading (s, w))).
Proof.
  intros t s w Hin.
  assert (E : reader_step T t (snd (stop_reading (s, w)))
              = (Returned (Some ConditionFalse),
                 (set_is_reading false s,
                  remove_thread t (snd (snd (stop_reading (s, w))))))).
  { rewrite stop_reading_eq. cbn [snd]. unfold reader_step. cbn [snd fst].
    assert (Ha : existsb (Nat.eqb t)
                   (threads (after w (dev w)
                      match read_thread s with
                      | Some th => [ThreadJoin th; Log INFO MsgStoppedReading]
                      | None => [Log INFO MsgStoppedReading]
                      end)) = true).
    { simpl. apply alive_iff. assumption. }
    rewrite Ha. reflexivity. }
  split; [exact E |]. split.
  - rewrite E. cbn [snd]. apply remove_thread_gone.
  - rewrite stop_reading_eq. cbn [snd]. rewrite stop_reading_eq. reflexivity.
Qed.

(** X5. [read_bytes] on a session that is not connected returns [None]
    and makes no call on the transport.  What it returns otherwise is
    never an empty [bytes]: it is the non-empty data the transport's
    [read] returned, and [None] when that read returned nothing or
    raised a [SerialException]. *)
Theorem read_bytes_contract :
  forall (size : Z) (s : SerialReader) (w : World W),
    (is_connected s = false ->
       read_bytes T size (s, w) =
         (Returned None, (s, with_trace w (Log ERROR MsgNotConnected))))
    /\ (forall data,
          fst (read_bytes T size (s, w)) = Returned (Some data) ->
          data <> []
          /\ exists h d,
               serial_conn s = Some h
               /\ t_read T h size (dev w) = (Returned data, d))
    /\ (forall h d,
          is_connected s = true -> serial_conn s = Some h ->
          t_read T h size (dev w) = (Returned [], d)
          \/ t_read T h size (dev w) = (Raised SerialException, d) ->
          fst (read_bytes T size (s, w)) = Returned None).
Proof.
  intros size s w. split; [| split].
  - intros Hc. unfold read_bytes. run_method. reflexivity.
  - intros data. unfold read_bytes. unfold_monad.
    cases; try discriminate; intros H; inversion H; subst;
      (split; [discriminate | eauto]).
  - intros h d Hc Hh [Hr | Hr]; unfold read_bytes; run_method; reflexivity.
Qed.

End Session_more.

(** ** The text [read_line] returns *)

Lemma lstrip_idem (s : pystr) : lstrip (lstrip s) = lstrip s.
Proof.
  induction s as [| c s IH]; simpl; [reflexivity |].
  destruct (isspace c) eqn:Hc; [exact IH |]. simpl. rewrite Hc. reflexivity.
Qed.

Lemma lstrip_snoc (a : pystr) (c : N) :
  isspace c = false -> lstrip (a ++ [c]) = lstrip a ++ [c].
Proof.
  intros Hc. induction a as [| x a IH]; simpl.
  - rewrite Hc. reflexivity.
  - destruct (isspace x); [exact IH | reflexivity].
Qed.

Lemma rstrip_cons (c : N) (l : pystr) :
  isspace c = false -> rstrip (c :: l) = c :: rstrip l.
Proof.
  intros Hc. unfold rstrip. simpl.
  rewrite (@lstrip_snoc (rev l) c Hc), rev_app_distr. reflexivity.
Qed.

Lemma lstrip_head (s : pystr) :
  lstrip s = [] \/ exists c l, lstrip s = c :: l /\ isspace c = false.
Proof.
  induction s as [| c s IH]; simpl; [left; reflexivity |].
  destruct (isspace c) eqn:Hc; [exact IH |].
  right. exists c, s. auto.
Qed.

Lemma strip_lstrip (s : pystr) : lstrip (strip s) = strip s.
Proof.
  unfold strip.
  destruct (lstrip_head s) as [E | (c & l & E & Hc)]; rewrite E.
  - reflexivity.
  - rewrite (@rstrip_cons c l Hc). simpl. rewrite Hc. reflexivity.
Qed.

Lemma strip_rstrip (s : pystr) : rstrip (strip s) = strip s.
Proof.
  unfold strip, rstrip. rewrite rev_involutive, lstrip_idem. reflexivity.
Qed.

Lemma lstrip_spaces (s : pystr) :
  Forall (fun c => isspace c = true) s -> lstrip s = [].
Proof.
  induction 1 as [| c s Hc _ IH]; simpl; [reflexivity |].
  rewrite Hc. exact IH.
Qed.

Lemma decode_ascii (l : list N) :
  Forall (fun c => (c < 128)%N) l -> decode_utf8_ignore l = l.
Proof.
  induction 1 as [| c l Hc _ IH]; [reflexivity |].
  simpl. apply N.ltb_lt in Hc. rewrite Hc, IH. reflexivity.
Qed.

Lemma rstrip_crlf (p : pystr) : rstrip (p ++ [13; 10]%N) = rstrip p.
Proof.
  unfold rstrip. rewrite rev_app_distr. reflexivity.
Qed.

Lemma lstrip_fixed_app (p q : pystr) :
  p <> [] -> lstrip p = p -> lstrip (p ++ q) = p ++ q.
Proof.
  destruct p as [| c p]; [contradiction |]. intros _. simpl.
  destruct (isspace c) eqn:Hc; [| reflexivity].
  intros H. exfalso.
  assert (Hlen : List.length (lstrip p) <= List.length p).
  { clear. induction p as [| x p IH]; simpl; [lia |].
    destruct (isspace x); simpl; lia. }
  rewrite H in Hlen. simpl in Hlen. lia.
Qed.

Lemma split_line_crlf (p : bytes) :
  ~ In Byte.x0a p ->
  Loopback.split_line (p ++ [Byte.x0d; Byte.x0a])
    = (p ++ [Byte.x0d; Byte.x0a], []).
Proof.
  induction p as [| c p IH]; intros Hn.
  - reflexivity.
  - simpl. destruct (Byte.eqb c Byte.x0a) eqn:Hc.
    + apply Byte.byte_dec_bl in Hc. subst. exfalso. apply Hn. left. reflexivity.
    + rewrite IH; [reflexivity |]. intros Hin. apply Hn. right. exact Hin.
Qed.

Section Text.

Variable W : Type.
Variable T : Transport W.

(** X6. The text [read_line] returns never begins or ends with
    whitespace.  A line that holds nothing but ASCII whitespace, a bare
    line terminator for one, comes back as the empty string, not as
    [None]: [None] is kept for a read that returned no bytes. *)
Theorem read_line_text_is_stripped :
  forall (s : SerialReader) (w : World W),
    (forall text,
       fst (read_line T (s, w)) = Returned (Some text) ->
       lstrip text = text /\ rstrip text = text)
    /\ (forall h line d,
          is_connected s = true -> serial_conn s = Some h ->
          t_readline T h (dev w) = (Returned line, d) ->
          line <> [] ->
          Forall (fun b => (Byte.to_N b < 128)%N
                           /\ isspace (Byte.to_N b) = true) line ->
          fst (read_line T (s, w)) = Returned (Some [])).
Proof.
  intros s w. split.
  - intros text. unfold read_line. unfold_monad.
    repeat (simpl;
            match goal with
            | |- context [match ?c with _ => _ end] =>
              lazymatch c with
              | context [match _ with _ => _ end] => fail
              | _ => destruct c eqn:?
              end
            end); try discriminate;
      intros H; inversion H; subst;
      split; [apply strip_lstrip | apply strip_rstrip].
  - intros h line d Hc Hh Hl Hne Hall.
    rewrite (read_line_data T s w Hc Hh Hl). simpl.
    destruct line as [| b line]; [contradiction |].
    unfold decode. rewrite decode_ascii.
    + unfold strip. rewrite lstrip_spaces; [reflexivity |].
      apply Forall_map. eapply Forall_impl; [| exact Hall].
      simpl. intros a [_ Ha]. exact Ha.
    + apply Forall_map. eapply Forall_impl; [| exact Hall].
      simpl. intros a [Ha _]. exact Ha.
Qed.

End Text.

(** X7. Over a loopback line with nothing pending, any ASCII payload
    that holds no line feed and neither begins nor ends with whitespace
    makes the round trip: [write(payload + b"\r\n")] returns [True], the
    [read_line()] that follows returns the payload as text, and the line
    is empty again. *)
Theorem ascii_line_round_trip :
  forall (s : SerialReader) (w : World Loopback.line) (h : handle)
         (payload : bytes),
    is_connected s = true -> serial_conn s = Some h ->
    Loopback.is_open h (dev w) = true -> Loopback.wire (dev w) = [] ->
    Forall (fun b => (Byte.to_N b < 128)%N) payload ->
    ~ In Byte.x0a payload ->
    lstrip (map Byte.to_N payload) = map Byte.to_N payload ->
    rstrip (map Byte.to_N payload) = map Byte.to_N payload ->
    fst (write Loopback.transport (payload ++ [Byte.x0d; Byte.x0a]) (s, w))
      = Returned true
    /\ fst (read_line Loopback.transport
              (snd (write Loopback.transport
                      (payload ++ [Byte.x0d; Byte.x0a]) (s, w))))
       = Returned (Some (map Byte.to_N payload))
    /\ Loopback.wire
         (dev (snd (snd (read_line Loopback.transport
                           (snd (write Loopback.transport
                                   (payload ++ [Byte.x0d; Byte.x0a])
                                   (s, w)))))))
       = [].
Proof.
  intros s w h payload Hc Hh Ho Hw Hascii Hlf Hl Hr.
  rewrite (loopback_write s w (payload ++ [Byte.x0d; Byte.x0a]) Hc Hh Ho).
  cbn [fst snd]. split; [reflexivity |].
  assert (Hline : t_readline Loopback.transport h
                    (dev (after w
                            (Loopback.on_wire (dev w)
                               (Loopback.wire (dev w) ++ payload ++ [Byte.x0d; Byte.x0a]))
                            [CallWrite h (payload ++ [Byte.x0d; Byte.x0a])
                               (Returned (Z.of_nat (List.length (payload ++ [Byte.x0d; Byte.x0a]))));
                             CallFlush h (Returned tt);
                             Log DEBUG
                               (MsgWrote (Z.of_nat (List.length (payload ++ [Byte.x0d; Byte.x0a])))
                                  (payload ++ [Byte.x0d; Byte.x0a]))]))
                  = (Returned (payload ++ [Byte.x0d; Byte.x0a]),
                     Loopback.on_wire (dev w) [])).
  { simpl. unfold Loopback.when_open, Loopback.is_open in *. simpl.
    rewrite Ho, Hw. simpl. rewrite (split_line_crlf payload Hlf).
    reflexivity. }
  rewrite (read_line_data Loopback.transport s _ Hc Hh Hline).
  cbn [fst snd]. split; [| reflexivity].
  assert (Htext : strip (decode (payload ++ [Byte.x0d; Byte.x0a]))
                  = map Byte.to_N payload).
  { unfold decode. rewrite decode_ascii.
    - rewrite map_app. simpl map.
      change [Byte.to_N Byte.x0d; Byte.to_N Byte.x0a] with [13%N; 10%N].
      unfold strip. destruct (map Byte.to_N payload) as [| c p] eqn:Hp.
      + reflexivity.
      + rewrite lstrip_fixed_app by (assumption || discriminate).
        rewrite rstrip_crlf. exact Hr.
    - apply Forall_map. apply Forall_app. split.
      + exact Hascii.
      + repeat constructor. }
  destruct (payload ++ [Byte.x0d; Byte.x0a]) eqn:Hp.
  - destruct payload; discriminate.
  - rewrite Htext. reflexivity.
Qed.

(** ** More on the lifecycle, the queue and the reader *)

Section Session_further.

Variable W : Type.
Variable T : Transport W.

Implicit Types (s : SerialReader) (w : World W) (st : State W).

Ltac cases :=
  repeat (simpl;
          match goal with
          | |- context [match ?c with _ => _ end] =>
            lazymatch c with
            | context [match _ with _ => _ end] => fail
            | _ => destruct c eqn:?
            end
          end).

(** X8. The session never lets go of a connection object: once one is
    stored, one is stored after any schedule of method calls and reader
    passes, [disconnect] included, and [get_port_info] never returns the
    empty mapping again.  On a stored object that reports itself not
    open, [get_port_info] reports [is_open] false and [in_waiting] 0
    without querying the transport. *)
Theorem connection_object_never_released :
  forall (l : list action) (s : SerialReader) (w : World W),
    serial_conn s <> None ->
    serial_conn (fst (snd (run T l (s, w)))) <> None
    /\ fst (get_port_info T (snd (run T l (s, w)))) <> Returned []
    /\ (forall h,
          serial_conn s = Some h -> t_is_open T h (dev w) = false ->
          get_port_info T (s, w) =
            (Returned
               [ ("port"%string, VStr (st_port (t_settings T h (dev w))));
                 ("baudrate"%string, VInt (st_baudrate (t_settings T h (dev w))));
                 ("bytesize"%string, VInt (st_bytesize (t_settings T h (dev w))));
                 ("parity"%string, VStr (st_parity (t_settings T h (dev w))));
                 ("stopbits"%string, VInt (st_stopbits (t_settings T h (dev w))));
                 ("timeout"%string, VFloat (st_timeout (t_settings T h (dev w))));
                 ("is_open"%string, VBool false);
                 ("in_waiting"%string, VInt 0) ],
             (s, w))).
Proof.
  intros l s w Hs.
  assert (Hs' : serial_conn (fst (snd (run T l (s, w)))) <> None).
  { destruct (run_frame T l s w) as (rs & s' & w' & evs & E & _ & F).
    rewrite E. simpl.
    destruct (af_conn F) as [Ec | (h & Ec & _)]; congruence. }
  split; [exact Hs' |]. split.
  - destruct (snd (run T l (s, w))) as [s' w']. simpl in Hs'.
    unfold get_port_info. unfold_monad. cases; try discriminate.
    contradiction.
  - intros h Hh Ho. unfold get_port_info. run_method. reflexivity.
Qed.

(** X9. Two calls of [start_reading] in a row on a connected session
    that is not reading start one thread, not two: the second call is
    the refused one. *)
Theorem start_reading_twice_one_thread :
  forall (s : SerialReader) (w : World W),
    is_connected s = true -> is_reading s = false ->
    threads (snd (snd (start_reading (snd (start_reading (s, w))))))
      = threads w ++ [next_thread w]
    /\ read_thread (fst (snd (start_reading (snd (start_reading (s, w))))))
       = Some (next_thread w)
    /\ is_reading (fst (snd (start_reading (snd (start_reading (s, w))))))
       = true
    /\ filter is_thread_start
         (events_since w
            (snd (snd (start_reading (snd (start_reading (s, w)))))))
       = [ThreadStart (next_thread w)].
Proof.
  intros s w Hc Hr.
  rewrite (start_reading_spawns s w Hc Hr). cbn [snd].
  rewrite start_reading_already by (simpl; assumption || reflexivity).
  cbn [fst snd]. repeat split.
  erewrite events_since_app by (simpl; rewrite <- app_assoc; reflexivity).
  reflexivity.
Qed.

Lemma chunks_read_nonempty (evs : list event) :
  Forall nonempty (chunks_read evs).
Proof.
  unfold chunks_read. induction evs as [| e evs IH]; simpl; [constructor |].
  destruct e; simpl; try exact IH.
  destruct r as [[| b data] | ex]; simpl; try exact IH.
  constructor; [discriminate | exact IH].
Qed.

Ltac keep_chunks :=
  simpl;
  try match goal with
      | H : data_queue _ = _ |- _ => rewrite H
      end;
  intros Hq;
  split;
  [ first [assumption | inversion Hq; subst; assumption]
  | first [discriminate
          | intros Heq; inversion Heq; subst; inversion Hq; subst;
            unfold nonempty in *; congruence] ].

(** One action keeps empty chunks out of the queue and out of what it
    hands back. *)
Lemma perform_chunks a s w :
  Forall nonempty (data_queue s) ->
  Forall nonempty (data_queue (fst (snd (perform T a (s, w)))))
  /\ fst (perform T a (s, w)) <> Returned (ResBytes (Some [])).
Proof.
  destruct a; unfold perform, lift.
  - unfold connect. unfold_monad. cases; keep_chunks.
  - unfold disconnect. unfold_monad. cases; keep_chunks.
  - unfold_monad. cases; keep_chunks.
  - unfold_monad. cases; keep_chunks.
  - unfold_monad. cases; keep_chunks.
  - unfold read_line. unfold_monad. cases; keep_chunks.
  - unfold read_bytes. unfold_monad. cases; keep_chunks.
  - unfold get_queued_data. unfold_monad. cases; keep_chunks.
  - unfold write. unfold_monad. cases; keep_chunks.
  - unfold get_port_info. unfold_monad. cases; keep_chunks.
  - intros Hq. unfold bind, ret, reader_step. simpl.
    destruct (existsb (Nat.eqb t) (threads w)).
    + destruct (read_loop_iter_frame T s w) as (x & s' & d & evs & E & F).
      rewrite E.
      destruct x; simpl; (split; [| discriminate]);
        rewrite (pf_queue F); apply Forall_app;
        (split; [assumption | apply chunks_read_nonempty]).
    + simpl. split; [assumption | discriminate].
Qed.

(** X10. No empty chunk is ever queued or handed back: if the queue
    holds none, then after any schedule of method calls and reader passes
    it still holds none, and no [get_queued_data] or [read_bytes] of the
    schedule returned an empty [bytes]. *)
Theorem no_empty_chunk_ever :
  forall (l : list action) (s : SerialReader) (w : World W),
    Forall nonempty (data_queue s) ->
    Forall nonempty (data_queue (fst (snd (run T l (s, w)))))
    /\ ~ In (Returned (ResBytes (Some []))) (fst (run T l (s, w))).
Proof.
  induction l as [| a l IH]; intros s w Hq; simpl.
  - split; [assumption | intros []].
  - destruct (perform_chunks a s w Hq) as [Hq1 Hr1].
    destruct (perform T a (s, w)) as [r [s1 w1]]. simpl in *.
    destruct (IH s1 w1 Hq1) as [Hq2 Hr2].
    destruct (run T l (s1, w1)) as [rs [s2 w2]]. simpl in *.
    split; [assumption |].
    intros [H | H]; [apply Hr1; exact H | apply Hr2; exact H].
Qed.

(** X11. A listener that raises ends the reader: the pass that called it
    leaves the loop.  The chunk it was called with is on the queue all
    the same.  [is_connected] stays true, unless what the listener raised
    was a [SerialException], which the loop takes for a transport
    failure. *)
Theorem raising_listener_ends_reader :
  forall (s : SerialReader) (w : World W) (h : handle) (n size : Z)
         (d1 d2 d3 d4 : W) (b : Byte.byte) (data : bytes)
         (f : listener) (e : exn),
    is_reading s = true -> is_connected s = true ->
    serial_conn s = Some h -> callback s = Some f ->
    t_in_waiting T h (dev w) = (Returned n, d1) -> (0 < n)%Z ->
    t_in_waiting T h d1 = (Returned size, d2) ->
    t_read T h size d2 = (Returned (b :: data), d3) ->
    t_listener T f (b :: data) d3 = (Raised e, d4) ->
    fst (read_loop_iter T (s, w))
      = Returned (Some match e with
                       | SerialException => SerialFailure
                       | _ => UnexpectedFailure
                       end)
    /\ data_queue (fst (snd (read_loop_iter T (s, w))))
       = data_queue s ++ [b :: data]
    /\ is_connected (fst (snd (read_loop_iter T (s, w))))
       = match e with SerialException => false | _ => true end.
Proof.
  intros s w h n size d1 d2 d3 d4 b data f e
         Hr Hc Hh Hf Hp Hn Hp2 Hrd Hl.
  apply Z.ltb_lt in Hn.
  unfold read_loop_iter, read_loop_try. run_method.
  destruct e; simpl; rewrite ?Hc; auto.
Qed.


(** The events of one pass. *)
Lemma read_loop_iter_events s w :
  forallb (reader_event (serial_conn s))
    (events_since w (snd (snd (read_loop_iter T (s, w))))) = true.
Proof.
  unfold read_loop_iter, read_loop_try. unfold_monad.
  cases;
    repeat match goal with
           | H : Some _ = Some _ |- _ => injection H as H; subst
           end;
    erewrite events_since_app
      by (simpl; rewrite <- ?app_assoc; simpl;
          first [reflexivity | symmetry; apply app_nil_r]);
    simpl; rewrite ?Nat.eqb_refl; reflexivity.
Qed.

Lemma read_loop_events : forall fuel s w,
  forallb (reader_event (serial_conn s))
    (events_since w (snd (snd (_read_loop T fuel (s, w))))) = true.
Proof.
  induction fuel as [| fuel IH]; intros s w; simpl.
  - unfold events_since. rewrite skipn_all. reflexivity.
  - pose proof (read_loop_iter_events s w) as H1.
    destruct (read_loop_iter_frame T s w) as (x & s1 & d1 & evs1 & E1 & F1).
    unfold bind at 1. rewrite E1 in *. cbn [snd] in H1.
    rewrite (events_since_app w (after w d1 evs1) evs1 eq_refl) in H1.
    destruct x as [e |]; cbv beta iota.
    + unfold ret. cbn [snd].
      rewrite (events_since_app w (after w d1 evs1) evs1 eq_refl).
      exact H1.
    + pose proof (IH s1 (after w d1 evs1)) as H2.
      destruct (read_loop_frame T fuel s1 (after w d1 evs1))
        as (x2 & s2 & d2 & evs2 & E2 & F2).
      rewrite E2 in *. cbn [snd] in *.
      rewrite (events_since_app (after w d1 evs1)
                 (after (after w d1 evs1) d2 evs2) evs2 eq_refl) in H2.
      rewrite after_after.
      rewrite (events_since_app w (after w d2 (evs1 ++ evs2)) (evs1 ++ evs2) eq_refl).
      rewrite forallb_app, H1. simpl.
      rewrite (pf_conn F1) in H2. exact H2.
Qed.

(** X13. The reader loop touches the transport only to ask how many
    bytes are waiting and to read them, and only on the stored
    connection object: however long it runs it never writes, flushes,
    closes, opens or reads a line, and it starts and joins no thread.
    A pass that finds nothing waiting reads nothing: it sleeps and goes
    round again. *)
Theorem reader_only_polls_and_reads :
  forall (fuel : nat) (s : SerialReader) (w : World W),
    forallb (reader_event (serial_conn s))
      (events_since w (snd (snd (_read_loop T fuel (s, w))))) = true
    /\ (forall h n d,
          is_reading s = true -> is_connected s = true ->
          serial_conn s = Some h ->
          t_in_waiting T h (dev w) = (Returned n, d) -> (n <= 0)%Z ->
          read_loop_iter T (s, w) =
            (Returned None,
             (s, after w d [CallInWaiting h (Returned n); Sleep]))).
Proof.
  intros fuel s w. split; [apply read_loop_events |].
  intros h n d Hr Hc Hh Hp Hn.
  assert (Hz : (0 <? n)%Z = false) by (apply Z.ltb_ge; exact Hn).
  unfold read_loop_iter, read_loop_try. run_method.
  unfold after, with_trace; simpl. rewrite <- !app_assoc. reflexivity.
Qed.

(** X15. The reader loop writes two attributes of the session and no
    other: it appends to [data_queue] and it may clear [is_connected].
    It never sets [is_connected], and it leaves [is_reading], the stored
    connection object, the thread object, the listener and the settings
    as they were. *)
Theorem reader_writes_queue_and_connected_only :
  forall (fuel : nat) (s : SerialReader) (w : World W),
    serial_conn (fst (snd (_read_loop T fuel (s, w)))) = serial_conn s
    /\ is_reading (fst (snd (_read_loop T fuel (s, w)))) = is_reading s
    /\ read_thread (fst (snd (_read_loop T fuel (s, w)))) = read_thread s
    /\ callback (fst (snd (_read_loop T fuel (s, w)))) = callback s
    /\ settings_of (fst (snd (_read_loop T fuel (s, w)))) = settings_of s
    /\ (is_connected (fst (snd (_read_loop T fuel (s, w)))) = true ->
        is_connected s = true)
    /\ (exists more,
          data_queue (fst (snd (_read_loop T fuel (s, w))))
          = data_queue s ++ more).
Proof.
  intros fuel s w.
  destruct (read_loop_frame T fuel s w) as (x & s' & d & evs & E & F).
  rewrite E. cbn [fst snd].
  split; [apply (pf_conn F) |]. split; [apply (pf_reading F) |].
  split; [apply (pf_thread F) |]. split; [apply (pf_callback F) |].
  split; [apply (pf_settings F) |]. split.
  - rewrite (pf_connected F). destruct x as [[] |]; auto; discriminate.
  - exists (chunks_read evs). apply (pf_queue F).
Qed.

(** A session that was never connected, with no thread running. *)
Lemma perform_before_connect a s w :
  is_connect a = false ->
  serial_conn s = None -> is_connected s = false -> threads w = [] ->
  serial_conn (fst (snd (perform T a (s, w)))) = None
  /\ is_connected (fst (snd (perform T a (s, w)))) = false
  /\ threads (snd (snd (perform T a (s, w)))) = []
  /\ dev (snd (snd (perform T a (s, w)))) = dev w
  /\ filter is_transport_call (trace (snd (snd (perform T a (s, w)))))
     = filter is_transport_call (trace w)
  /\ raises (fst (perform T a (s, w))) = false.
Proof.
  intros Ha Hs Hc Ht.
  destruct a; try discriminate; unfold perform, lift;
    try unfold disconnect; try unfold read_line; try unfold read_bytes;
    try unfold get_queued_data; try unfold write; try unfold get_port_info;
    try (unfold bind, ret, reader_step; simpl; rewrite Ht; simpl; auto 10);
    unfold_monad; simpl;
    try destruct (read_thread s); try destruct (data_queue s);
    run_method; rewrite ?filter_app; simpl; rewrite ?app_nil_r; auto 10.
Qed.

(** X16. Until [connect] is called nothing touches the transport: on a
    newly constructed session, any schedule of the other methods and of
    reader passes returns from every call, makes no call on the
    transport, starts no thread, and leaves the session disconnected
    with no connection object. *)
Theorem nothing_before_connect :
  forall (l : list action) (d : W) (p : string) (b : Z) (t : float)
         (bs : Z) (pa : string) (sb : Z),
    forallb (fun a => negb (is_connect a)) l = true ->
    filter is_transport_call
      (trace (snd (snd (run T l (init p b t bs pa sb, fresh_world d))))) = []
    /\ dev (snd (snd (run T l (init p b t bs pa sb, fresh_world d)))) = d
    /\ threads (snd (snd (run T l (init p b t bs pa sb, fresh_world d)))) = []
    /\ is_connected (fst (snd (run T l (init p b t bs pa sb, fresh_world d))))
       = false
    /\ serial_conn (fst (snd (run T l (init p b t bs pa sb, fresh_world d))))
       = None
    /\ forallb (fun r => negb (raises r))
         (fst (run T l (init p b t bs pa sb, fresh_world d))) = true.
Proof.
  intros l d p b t bs pa sb.
  assert (G : forall l s w,
             forallb (fun a => negb (is_connect a)) l = true ->
             serial_conn s = None -> is_connected s = false ->
             threads w = [] ->
             filter is_transport_call (trace (snd (snd (run T l (s, w)))))
               = filter is_transport_call (trace w)
             /\ dev (snd (snd (run T l (s, w)))) = dev w
             /\ threads (snd (snd (run T l (s, w)))) = []
             /\ is_connected (fst (snd (run T l (s, w)))) = false
             /\ serial_conn (fst (snd (run T l (s, w)))) = None
             /\ forallb (fun r => negb (raises r)) (fst (run T l (s, w))) = true).
  { clear. induction l as [| a l IH]; intros s w Hl Hs Hc Ht; simpl in *.
    - auto 10.
    - apply andb_true_iff in Hl. destruct Hl as [Ha Hl].
      apply negb_true_iff in Ha.
      destruct (perform_before_connect a s w Ha Hs Hc Ht)
        as (Hs1 & Hc1 & Ht1 & Hd1 & Hf1 & Hr1).
      destruct (perform T a (s, w)) as [r [s1 w1]]. simpl in *.
      destruct (IH s1 w1 Hl Hs1 Hc1 Ht1) as (Hf2 & Hd2 & Ht2 & Hc2 & Hs2 & Hr2).
      destruct (run T l (s1, w1)) as [rs [s2 w2]]. simpl in *.
      rewrite Hr1, Hr2. simpl.
      repeat split; congruence. }
  intros Hl. apply (G l (init p b t bs pa sb) (fresh_world d) Hl);
    reflexivity.
Qed.

(** The listeners a pass does not call. *)
Lemma read_loop_iter_others s w f g :
  callback s = Some g -> f <> g ->
  chunks_heard f (events_since w (snd (snd (read_loop_iter T (s, w))))) = [].
Proof.
  intros Hg Hne. apply Nat.eqb_neq in Hne.
  unfold read_loop_iter, read_loop_try. unfold_monad.
  cases;
    repeat match goal with
           | H : Some _ = Some _ |- _ => injection H as H; subst
           end;
    try congruence;
    erewrite events_since_app
      by (simpl; rewrite <- ?app_assoc; simpl;
          first [reflexivity | symmetry; apply app_nil_r]);
    unfold chunks_heard; simpl; rewrite ?Hne; try reflexivity;
    match goal with
    | H1 : callback s = Some ?a, H2 : callback s = Some ?b |- _ =>
      rewrite H1 in H2; injection H2 as H2; subst; rewrite Hne; reflexivity
    end.
Qed.

Lemma read_loop_others : forall fuel s w f g,
  callback s = Some g -> f <> g ->
  chunks_heard f (events_since w (snd (snd (_read_loop T fuel (s, w))))) = [].
Proof.
  induction fuel as [| fuel IH]; intros s w f g Hg Hne; simpl.
  - unfold events_since. rewrite skipn_all. reflexivity.
  - pose proof (read_loop_iter_others s w Hg Hne) as H1.
    destruct (read_loop_iter_frame T s w) as (x & s1 & d1 & evs1 & E1 & F1).
    unfold bind at 1. rewrite E1 in *. cbn [snd] in H1.
    rewrite (events_since_app w (after w d1 evs1) evs1 eq_refl) in H1.
    destruct x as [e |]; cbv beta iota.
    + unfold ret. cbn [snd].
      rewrite (events_since_app w (after w d1 evs1) evs1 eq_refl).
      exact H1.
    + assert (Hg1 : callback s1 = Some g)
        by (rewrite (pf_callback F1); exact Hg).
      pose proof (IH s1 (after w d1 evs1) f g Hg1 Hne) as H2.
      destruct (read_loop_frame T fuel s1 (after w d1 evs1))
        as (x2 & s2 & d2 & evs2 & E2 & F2).
      rewrite E2 in *. cbn [snd] in *.
      rewrite (events_since_app (after w d1 evs1)
                 (after (after w d1 evs1) d2 evs2) evs2 eq_refl) in H2.
      rewrite after_after.
      rewrite (events_since_app w (after w d2 (evs1 ++ evs2)) (evs1 ++ evs2) eq_refl).
      unfold chunks_heard in *. rewrite collect_app, H1, H2. reflexivity.
Qed.

(** X17. [set_callback] replaces the listener for every chunk delivered
    from then on: in a run of the reader loop that follows, the new
    listener is called with each chunk read, in order, and no other
    listener, the one it replaced included, is called at all. *)
Theorem replaced_listener_is_silent :
  forall (fuel : nat) (s : SerialReader) (w : World W) (f g : listener),
    f <> g ->
    chunks_heard f
      (events_since w
         (snd (snd (_read_loop T fuel (snd (set_callback (Some g) (s, w)))))))
      = []
    /\ chunks_heard g
         (events_since w
            (snd (snd (_read_loop T fuel (snd (set_callback (Some g) (s, w)))))))
       = chunks_read
           (events_since w
              (snd (snd (_read_loop T fuel (snd (set_callback (Some g) (s, w))))))).
Proof.
  intros fuel s w f g Hne. unfold set_callback, assign. cbn [snd fst].
  split.
  - apply read_loop_others with (g := g); [reflexivity | exact Hne].
  - destruct (read_loop_frame T fuel (set_callback_field (Some g) s) w)
      as (x & s' & d & evs & E & F).
    rewrite E. cbn [snd].
    rewrite (events_since_app w (after w d evs) evs eq_refl).
    apply (pf_heard F). reflexivity.
Qed.

End Session_further.

(** ** The theorems at work on the two transports *)

Lemma reader_delivers_in_order_witness :
  fst (drain 4
         (snd (_read_loop Scripted.transport 3
                 (fst Scripted.listening, snd Scripted.listening))))
  = [Returned (Some Scripted.chunk1); Returned (Some Scripted.chunk2);
     Returned (Some Scripted.chunk3); Returned None].
Proof.
  destruct (@reader_delivers_in_order _ Scripted.transport 3
              (fst Scripted.listening) (snd Scripted.listening) 7 eq_refl)
    as (x & s' & d & evs & E & Q & _ & D).
  rewrite E. cbn [snd]. apply D; [reflexivity |].
  assert (Hs : data_queue s'
               = [Scripted.chunk1; Scripted.chunk2; Scripted.chunk3]).
  { change s' with (fst (snd (Returned x, (s', after (snd Scripted.listening) d evs)))).
    rewrite <- E. reflexivity. }
  rewrite Hs in Q. symmetry. exact Q.
Defined.

(** C2 as stated fails: with the port open and the transport raising an
    error that is not a [SerialException] (an [OSError] from a device
    that went away), [read_line] and [get_port_info] raise it to their
    caller; and [disconnect] lets even a [SerialException] from [close]
    through. *)
Lemma errors_reach_the_caller :
  fst (read_line Scripted.transport
         (Scripted.connected [Scripted.Fail UnexpectedError]))
    = Raised UnexpectedError
  /\ fst (get_port_info Scripted.transport
            (Scripted.connected [Scripted.Fail UnexpectedError]))
     = Raised UnexpectedError
  /\ fst (disconnect Scripted.transport
            (Scripted.connected [Scripted.Fail SerialException]))
     = Raised SerialException.
Proof.
  repeat split; reflexivity.
Qed.

Lemma error_policy_witness :
  fst (write Scripted.transport Loopback.AT_CRLF
         (fst (Scripted.connected [Scripted.Fail UnexpectedError]),
          snd (Scripted.connected [Scripted.Fail UnexpectedError])))
    = Raised UnexpectedError
  /\ fst (disconnect Scripted.transport
            (fst (Scripted.connected [Scripted.Fail UnexpectedError]),
             snd (Scripted.connected [Scripted.Fail UnexpectedError])))
     = Raised UnexpectedError
  /\ fst (read_line Scripted.transport
            (fst (Scripted.connected [Scripted.Fail SerialException]),
             snd (Scripted.connected [Scripted.Fail SerialException])))
     = Returned None
  /\ is_connected
       (fst (snd (disconnect Scripted.transport
                    (fst (Scripted.connected [Scripted.Fail UnexpectedError]),
                     snd (Scripted.connected [Scripted.Fail UnexpectedError])))))
     = true.
Proof.
  pose proof (error_policy Scripted.transport
                (fst (Scripted.connected [Scripted.Fail UnexpectedError]))
                (snd (Scripted.connected [Scripted.Fail UnexpectedError])))
    as (_ & _ & Hprop & Hnone & _ & _ & Hclose & _).
  pose proof (error_policy Scripted.transport
                (fst (Scripted.connected [Scripted.Fail SerialException]))
                (snd (Scripted.connected [Scripted.Fail SerialException])))
    as (_ & _ & _ & _ & _ & Hconv & _).
  split; [| split; [| split]].
  - refine (proj2 (proj2 (Hprop 0 UnexpectedError
                            {| Scripted.open_flag := true; Scripted.script := [] |}
                            eq_refl eq_refl _)) Loopback.AT_CRLF eq_refl).
    discriminate.
  - exact (proj1 (Hnone 0 UnexpectedError
                    {| Scripted.open_flag := true; Scripted.script := [] |}
                    eq_refl eq_refl) eq_refl).
  - rewrite (proj1 (Hconv 0 {| Scripted.open_flag := true; Scripted.script := [] |}
                      eq_refl eq_refl) eq_refl).
    reflexivity.
  - exact (proj1 (Hclose 0 UnexpectedError
                    {| Scripted.open_flag := true; Scripted.script := [] |}
                    eq_refl eq_refl eq_refl)).
Defined.

(** C3 as stated fails in its last part: the reader thread dies of a
    transport failure, [start_reading] is refused while disconnected,
    [connect] succeeds again, and the [start_reading] that follows still
    starts no thread: [is_reading] was left true, so it only warns.  One
    thread was ever started and none is running. *)
Lemma no_restart_after_reconnect :
  fst (run Scripted.transport
         [DoConnect; DoStartReading; DoReaderStep 0; DoStartReading;
          DoConnect; DoStartReading]
         (init_default,
          Scripted.plays
            [Scripted.Done; Scripted.Fail SerialException; Scripted.Done]))
    = [Returned (ResBool true); Returned ResNone;
       Returned (ResLoop (Some SerialFailure)); Returned ResNone;
       Returned (ResBool true); Returned ResNone]
  /\ threads
       (snd (Scripted.session_after
               [DoConnect; DoStartReading; DoReaderStep 0; DoStartReading;
                DoConnect; DoStartReading]
               [Scripted.Done; Scripted.Fail SerialException; Scripted.Done]))
     = []
  /\ filter is_thread_start
       (trace
          (snd (Scripted.session_after
                  [DoConnect; DoStartReading; DoReaderStep 0; DoStartReading;
                   DoConnect; DoStartReading]
                  [Scripted.Done; Scripted.Fail SerialException;
                   Scripted.Done])))
     = [ThreadStart 0]
  /\ last
       (trace
          (snd (Scripted.session_after
                  [DoConnect; DoStartReading; DoReaderStep 0; DoStartReading;
                   DoConnect; DoStartReading]
                  [Scripted.Done; Scripted.Fail SerialException;
                   Scripted.Done])))
       Sleep
     = Log WARNING MsgAlreadyReading.
Proof.
  repeat split; reflexivity.
Qed.

Lemma dying_reader_reached :
  Scripted.dying_reader
    = Scripted.reading [Scripted.Fail SerialException; Scripted.Done]
  /\ Scripted.dead_reader
     = snd (reader_step Scripted.transport 0 Scripted.dying_reader)
  /\ Scripted.reconnected
     = snd (connect Scripted.transport
              (snd (stop_reading Scripted.dead_reader))).
Proof.
  repeat split; vm_compute; reflexivity.
Qed.

Lemma transport_failure_then_restart_witness :
  is_connected (fst Scripted.dead_reader) = false
  /\ is_reading (fst Scripted.dead_reader) = true
  /\ threads (snd (snd (start_reading Scripted.reconnected))) = [1].
Proof.
  assert (Hstep : reader_step Scripted.transport 0
                    (fst Scripted.dying_reader, snd Scripted.dying_reader)
                  = (Returned (Some SerialFailure),
                     (fst Scripted.dead_reader, snd Scripted.dead_reader)))
    by (vm_compute; reflexivity).
  assert (Hfail : existsb read_failed
                    (events_since (snd Scripted.dying_reader)
                       (snd Scripted.dead_reader)) = true)
    by (vm_compute; reflexivity).
  pose proof (@transport_failure_then_restart _ Scripted.transport 0
                (fst Scripted.dying_reader) (snd Scripted.dying_reader)
                (Returned (Some SerialFailure))
                (fst Scripted.dead_reader) (snd Scripted.dead_reader)
                (or_introl eq_refl) Hstep Hfail)
    as ((_ & Hc & _ & Hr) & _ & _ & Hrestart).
  split; [exact Hc |]. split; [exact Hr |].
  assert (Hconn : connect Scripted.transport
                    (snd (stop_reading
                            (fst Scripted.dead_reader, snd Scripted.dead_reader)))
                  = (Returned true,
                     (fst Scripted.reconnected, snd Scripted.reconnected)))
    by (vm_compute; reflexivity).
  exact (Hrestart _ _ Hconn).
Defined.

(** C8 as stated fails: the loop is left by a transport failure, or by
    any other exception, and [is_reading] is still true. *)
Lemma reading_flag_survives_failure :
  fst (_read_loop Scripted.transport 5
         (Scripted.reading [Scripted.Fail SerialException]))
    = Returned (Some SerialFailure)
  /\ is_reading
       (fst (snd (_read_loop Scripted.transport 5
                    (Scripted.reading [Scripted.Fail SerialException]))))
     = true
  /\ fst (_read_loop Scripted.transport 5
            (Scripted.reading [Scripted.Fail UnexpectedError]))
     = Returned (Some UnexpectedFailure)
  /\ is_reading
       (fst (snd (_read_loop Scripted.transport 5
                    (Scripted.reading [Scripted.Fail UnexpectedError]))))
     = true.
Proof.
  repeat split; reflexivity.
Qed.

Lemma reader_failure_ends_task_witness :
  Scripted.broken_loop
    = snd (_read_loop Scripted.transport 5 Scripted.dying_reader)
  /\ is_reading (fst Scripted.broken_loop) = true
  /\ is_connected (fst Scripted.broken_loop) = false.
Proof.
  split; [vm_compute; reflexivity |].
  assert (Hx : SerialFailure <> ConditionFalse) by discriminate.
  assert (Hloop : _read_loop Scripted.transport 5
                    (fst Scripted.dying_reader, snd Scripted.dying_reader)
                  = (Returned (Some SerialFailure),
                     (fst Scripted.broken_loop, snd Scripted.broken_loop)))
    by (vm_compute; reflexivity).
  pose proof (proj1 (@reader_failure_ends_task _ Scripted.transport
                (fst Scripted.dying_reader) (snd Scripted.dying_reader)
                SerialFailure
                (fst Scripted.broken_loop) (snd Scripted.broken_loop)
                Hx) 5 Hloop)
    as (Hr & Hc & _).
  split; [exact Hr | exact Hc].
Defined.

(** C4 as stated fails for the state a reader that died of a transport
    failure leaves behind, reading but not connected: [start_reading]
    logs the error, not the warning, and [is_reading] stays true. *)
Lemma reading_but_disconnected_gets_error :
  Scripted.dead_reader
    = Scripted.session_after [DoConnect; DoStartReading; DoReaderStep 0]
        [Scripted.Done; Scripted.Fail SerialException; Scripted.Done]
  /\ is_reading (fst Scripted.dead_reader) = true
  /\ is_connected (fst Scripted.dead_reader) = false
  /\ start_reading Scripted.dead_reader
     = (Returned tt,
        (fst Scripted.dead_reader,
         with_trace (snd Scripted.dead_reader) (Log ERROR MsgNotConnected)))
  /\ start_reading Scripted.dead_reader
     <> (Returned tt,
         (fst Scripted.dead_reader,
          with_trace (snd Scripted.dead_reader) (Log WARNING MsgAlreadyReading)))
  /\ is_reading (fst (snd (start_reading Scripted.dead_reader))) = true.
Proof.
  split; [vm_compute; reflexivity |].
  split; [reflexivity |]. split; [reflexivity |].
  split; [reflexivity |]. split; [| reflexivity].
  vm_compute. discriminate.
Qed.

Lemma start_reading_refused_witness :
  start_reading (init_default, Scripted.plays [])
    = (Returned tt,
       (init_default, with_trace (Scripted.plays []) (Log ERROR MsgNotConnected)))
  /\ start_reading
       (set_is_reading true (set_is_connected true init_default),
        Scripted.plays [])
     = (Returned tt,
        (set_is_reading true (set_is_connected true init_default),
         with_trace (Scripted.plays []) (Log WARNING MsgAlreadyReading))).
Proof.
  split.
  - apply (proj1 (start_reading_refused init_default (Scripted.plays []))).
    reflexivity.
  - apply (proj2 (start_reading_refused
                    (set_is_reading true (set_is_connected true init_default))
                    (Scripted.plays []))); reflexivity.
Defined.

Lemma write_contract_witness :
  write Loopback.transport Loopback.AT_CRLF
      (init_default, fresh_world Loopback.idle)
    = (Returned false,
       (init_default,
        with_trace (fresh_world Loopback.idle) (Log ERROR MsgNotConnected)))
  /\ fst (write Loopback.transport Loopback.AT_CRLF
            (fst Loopback.connected_session, snd Loopback.connected_session))
     = Returned true
  /\ fst (write Scripted.transport Loopback.AT_CRLF
            (fst (Scripted.connected [Scripted.Fail SerialException]),
             snd (Scripted.connected [Scripted.Fail SerialException])))
     = Returned false.
Proof.
  split; [| split].
  - apply (proj1 (write_contract Loopback.transport init_default
                    (fresh_world Loopback.idle) Loopback.AT_CRLF)).
    reflexivity.
  - rewrite (proj1 (proj2 (write_contract Loopback.transport
                             (fst Loopback.connected_session)
                             (snd Loopback.connected_session)
                             Loopback.AT_CRLF))
               0 4%Z
               (Loopback.on_wire (dev (snd Loopback.connected_session))
                  Loopback.AT_CRLF)
               (Loopback.on_wire (dev (snd Loopback.connected_session))
                  Loopback.AT_CRLF)
               eq_refl eq_refl eq_refl eq_refl).
    reflexivity.
  - rewrite (proj1 (proj2 (proj2 (write_contract Scripted.transport
                             (fst (Scripted.connected [Scripted.Fail SerialException]))
                             (snd (Scripted.connected [Scripted.Fail SerialException]))
                             Loopback.AT_CRLF)))
               0 {| Scripted.open_flag := true; Scripted.script := [] |}
               eq_refl eq_refl eq_refl).
    reflexivity.
Defined.

Lemma write_then_read_line_witness :
  (fst (write Loopback.transport Loopback.AT_CRLF
          (fst Loopback.connected_session, snd Loopback.connected_session))
     = Returned true
   /\ fst (read_line Loopback.transport
             (snd (write Loopback.transport Loopback.AT_CRLF
                     (fst Loopback.connected_session,
                      snd Loopback.connected_session))))
      = Returned (Some (str_lit "AT")))
  /\ fst (read_line Scripted.transport
            (fst (Scripted.connected [Scripted.Data []]),
             snd (Scripted.connected [Scripted.Data []])))
     = Returned None.
Proof.
  split.
  - apply (proj1 write_then_read_line
             (fst Loopback.connected_session) (snd Loopback.connected_session) 0);
      reflexivity.
  - rewrite (proj2 write_then_read_line _ Scripted.transport
               (fst (Scripted.connected [Scripted.Data []]))
               (snd (Scripted.connected [Scripted.Data []]))
               0 {| Scripted.open_flag := true; Scripted.script := [] |}
               eq_refl eq_refl eq_refl).
    reflexivity.
Defined.

Lemma lifecycle_keeps_queue_witness :
  fst (drain 2
         (snd (run Scripted.transport
                 [DoConnect; DoStartReading; DoReaderStep 0; DoStopReading;
                  DoReaderStep 0; DoDisconnect]
                 (set_data_queue [Scripted.chunk1; Scripted.chunk2] init_default,
                  Scripted.plays (Scripted.Done :: Scripted.three_chunks)))))
  = [Returned (Some Scripted.chunk1); Returned (Some Scripted.chunk2)].
Proof.
  exact (proj2 (proj2 (lifecycle_keeps_queue Scripted.transport
                         (set_data_queue [Scripted.chunk1; Scripted.chunk2]
                            init_default)
                         (Scripted.plays (Scripted.Done :: Scripted.three_chunks)))
                  [DoConnect; DoStartReading; DoReaderStep 0; DoStopReading;
                   DoReaderStep 0; DoDisconnect]
                  eq_refl)).
Defined.

(** C10 as stated fails: the second [connect] drops the object held
    before and its finaliser closes it.  [close] is called on the old
    handle, and over the loopback line the old handle is no longer open
    while the new one is. *)
Lemma old_handle_is_closed :
  Examples.relinked
    = snd (connect_dropping Scripted.transport Examples.linked)
  /\ serial_conn (fst Examples.linked) = Some 0
  /\ serial_conn (fst Examples.relinked) = Some 1
  /\ existsb (is_close_of 0)
       (events_since (snd Examples.linked) (snd Examples.relinked)) = true
  /\ Examples.looped_twice
     = snd (connect_dropping Loopback.transport Loopback.connected_session)
  /\ Loopback.is_open 0 (dev (snd Loopback.connected_session)) = true
  /\ Loopback.is_open 0 (dev (snd Examples.looped_twice)) = false
  /\ Loopback.is_open 1 (dev (snd Examples.looped_twice)) = true.
Proof.
  repeat split; vm_compute; reflexivity.
Qed.

Lemma connect_drops_old_handle_witness :
  serial_conn
    (fst (snd (connect_dropping Scripted.transport
                 (fst Examples.linked, snd Examples.linked))))
  = Some 1
  /\ filter is_transport_call
       (events_since (snd Examples.linked)
          (snd (snd (connect_dropping Scripted.transport
                       (fst Examples.linked, snd Examples.linked)))))
     = [CallSerial (settings_of (fst Examples.linked)) 1 (Returned tt);
        CallClose 0 (Returned tt)]
  /\ existsb (is_close_of 0)
       (events_since
          (snd (snd (connect_dropping Scripted.transport
                       (fst Examples.linked, snd Examples.linked))))
          (snd (snd (run Scripted.transport
                       [DoDisconnect; DoConnect; DoDisconnect]
                       (snd (connect_dropping Scripted.transport
                               (fst Examples.linked, snd Examples.linked)))))))
     = false.
Proof.
  pose proof (proj1 (proj2 (@connect_drops_old_handle _ Scripted.transport
                (fst Examples.linked) (snd Examples.linked)
                0 eq_refl eq_refl (le_n 1)))
              {| Scripted.open_flag := true; Scripted.script := [] |}
              (Returned tt)
              {| Scripted.open_flag := true; Scripted.script := [] |}
              eq_refl eq_refl)
    as (Hs & _ & _ & Hev & _ & Hl).
  split; [exact Hs |]. split; [exact Hev |].
  exact (Hl [DoDisconnect; DoConnect; DoDisconnect]).
Defined.

(** ** The further properties at work *)

Lemma connect_outcome_witness :
  fst (connect Scripted.transport (init_default, Scripted.plays [Scripted.Done]))
    = Returned true
  /\ is_connected
       (fst (snd (connect Scripted.transport
                    (init_default, Scripted.plays [Scripted.Done]))))
     = true.
Proof.
  pose proof (@connect_outcome _ Scripted.transport init_default
                (Scripted.plays [Scripted.Done])) as (Hiff & Htrue & _).
  assert (H : fst (connect Scripted.transport
                     (init_default, Scripted.plays [Scripted.Done]))
              = Returned true).
  { apply Hiff. eexists. split; reflexivity. }
  split; [exact H | exact (proj1 (Htrue H))].
Defined.

Lemma reachable_sessions_consistent_witness :
  consistent
    (snd (run Scripted.transport
            [DoConnect; DoStartReading; DoReaderStep 0; DoDisconnect]
            (init "/dev/ttyUSB0" 9600 1%float 8 "N" 1,
             fresh_world {| Scripted.open_flag := true;
                            Scripted.script := [Scripted.Done] |}))).
Proof.
  exact (proj1 (@reachable_sessions_consistent _ Scripted.transport
                  [DoConnect; DoStartReading; DoReaderStep 0; DoDisconnect]
                  {| Scripted.open_flag := true;
                     Scripted.script := [Scripted.Done] |}
                  "/dev/ttyUSB0" 9600%Z 1%float 8%Z "N" 1%Z DoConnect)).
Defined.

Lemma disconnect_outcome_witness :
  fst (disconnect Scripted.transport
         (fst Examples.linked, snd Examples.linked)) = Returned tt
  /\ is_connected
       (fst (snd (disconnect Scripted.transport
                    (fst Examples.linked, snd Examples.linked)))) = false.
Proof.
  pose proof (proj1 (proj2 (proj2
                (@disconnect_outcome _ Scripted.transport
                   (fst Examples.linked) (snd Examples.linked))))
                0 {| Scripted.open_flag := true; Scripted.script := [] |}
                eq_refl eq_refl eq_refl)
    as (Hr & Hc & _).
  split; [exact Hr | exact Hc].
Defined.

Lemma stopped_reader_takes_nothing_witness :
  ~ In 0
      (threads
         (snd (snd (reader_step Scripted.transport 0
                      (snd (stop_reading
                              (fst Examples.idle_reader,
                               snd Examples.idle_reader))))))).
Proof.
  exact (proj1 (proj2 (@stopped_reader_takes_nothing _ Scripted.transport 0
                         (fst Examples.idle_reader) (snd Examples.idle_reader)
                         (or_introl eq_refl)))).
Defined.

Lemma read_bytes_contract_witness :
  read_bytes Scripted.transport 1024 (init_default, Scripted.plays [])
    = (Returned None,
       (init_default, with_trace (Scripted.plays []) (Log ERROR MsgNotConnected))).
Proof.
  exact (proj1 (@read_bytes_contract _ Scripted.transport 1024
                  init_default (Scripted.plays [])) eq_refl).
Defined.

Lemma read_line_text_is_stripped_witness :
  fst (read_line Scripted.transport
         (fst (Scripted.connected [Scripted.Data [Byte.x0d; Byte.x0a]]),
          snd (Scripted.connected [Scripted.Data [Byte.x0d; Byte.x0a]])))
    = Returned (Some []).
Proof.
  refine (proj2 (@read_line_text_is_stripped _ Scripted.transport
                   (fst (Scripted.connected [Scripted.Data [Byte.x0d; Byte.x0a]]))
                   (snd (Scripted.connected [Scripted.Data [Byte.x0d; Byte.x0a]])))
            0 [Byte.x0d; Byte.x0a]
            {| Scripted.open_flag := true; Scripted.script := [] |}
            eq_refl eq_refl eq_refl _ _).
  - discriminate.
  - repeat constructor.
Defined.

Lemma ascii_line_round_trip_witness :
  fst (read_line Loopback.transport
         (snd (write Loopback.transport
                 (Examples.OK ++ [Byte.x0d; Byte.x0a])
                 (fst Loopback.connected_session,
                  snd Loopback.connected_session))))
    = Returned (Some (map Byte.to_N Examples.OK)).
Proof.
  refine (proj1 (proj2 (@ascii_line_round_trip
                          (fst Loopback.connected_session)
                          (snd Loopback.connected_session) 0 Examples.OK
                          eq_refl eq_refl eq_refl eq_refl _ _ eq_refl eq_refl))).
  - repeat constructor.
  - intros [H | [H | []]]; discriminate.
Defined.

Lemma connection_object_never_released_witness :
  serial_conn
    (fst (snd (run Scripted.transport [DoDisconnect; DoStopReading]
                 (fst Examples.linked, snd Examples.linked))))
  <> None.
Proof.
  refine (proj1 (@connection_object_never_released _ Scripted.transport
                   [DoDisconnect; DoStopReading]
                   (fst Examples.linked) (snd Examples.linked) _)).
  discriminate.
Defined.

Lemma start_reading_twice_one_thread_witness :
  threads
    (snd (snd (start_reading
                 (snd (start_reading
                         (fst Examples.linked, snd Examples.linked))))))
  = [0].
Proof.
  exact (proj1 (@start_reading_twice_one_thread _
                  (fst Examples.linked) (snd Examples.linked)
                  eq_refl eq_refl)).
Defined.

Lemma no_empty_chunk_ever_witness :
  ~ In (Returned (ResBytes (Some [])))
      (fst (run Scripted.transport
              [DoConnect; DoStartReading; DoReaderStep 0; DoGetQueuedData;
               DoGetQueuedData; DoReadBytes 4]
              (set_data_queue [Scripted.chunk1] init_default,
               Scripted.plays
                 [Scripted.Done; Scripted.Num 1; Scripted.Num 1;
                  Scripted.Data []]))).
Proof.
  refine (proj2 (@no_empty_chunk_ever _ Scripted.transport
                   [DoConnect; DoStartReading; DoReaderStep 0; DoGetQueuedData;
                    DoGetQueuedData; DoReadBytes 4]
                   (set_data_queue [Scripted.chunk1] init_default)
                   (Scripted.plays
                      [Scripted.Done; Scripted.Num 1; Scripted.Num 1;
                       Scripted.Data []])
                   _)).
  constructor; [discriminate | constructor].
Defined.

Lemma raising_listener_ends_reader_witness :
  fst (read_loop_iter Scripted.transport
         (fst Examples.doomed_listener, snd Examples.doomed_listener))
    = Returned (Some UnexpectedFailure)
  /\ data_queue
       (fst (snd (read_loop_iter Scripted.transport
                    (fst Examples.doomed_listener,
                     snd Examples.doomed_listener))))
     = [Scripted.chunk1].
Proof.
  pose proof (@raising_listener_ends_reader _ Scripted.transport
                (fst Examples.doomed_listener) (snd Examples.doomed_listener)
                0 2%Z 2%Z
                {| Scripted.open_flag := true;
                   Scripted.script :=
                     [Scripted.Num 2; Scripted.Data Scripted.chunk1;
                      Scripted.Fail UnexpectedError] |}
                {| Scripted.open_flag := true;
                   Scripted.script :=
                     [Scripted.Data Scripted.chunk1;
                      Scripted.Fail UnexpectedError] |}
                {| Scripted.open_flag := true;
                   Scripted.script := [Scripted.Fail UnexpectedError] |}
                {| Scripted.open_flag := true; Scripted.script := [] |}
                Byte.x01 [Byte.x02] 7 UnexpectedError
                eq_refl eq_refl eq_refl eq_refl eq_refl eq_refl
                eq_refl eq_refl eq_refl)
    as (Hx & Hq & _).
  split; [exact Hx | exact Hq].
Defined.


Lemma reader_only_polls_and_reads_witness :
  fst (read_loop_iter Scripted.transport
         (fst Examples.idle_reader, snd Examples.idle_reader))
    = Returned None.
Proof.
  rewrite (proj2 (@reader_only_polls_and_reads _ Scripted.transport 0
                    (fst Examples.idle_reader) (snd Examples.idle_reader))
             0 0%Z {| Scripted.open_flag := true; Scripted.script := [] |}
             eq_refl eq_refl eq_refl eq_refl (Z.le_refl 0)).
  reflexivity.
Defined.

Lemma delivery_in_order_interleaved_witness :
  exists rs s' w' evs,
    run Scripted.transport
      [DoReaderStep 0; DoGetQueuedData; DoReaderStep 0; DoReaderStep 0;
       DoGetQueuedData; DoGetQueuedData; DoGetQueuedData]
      (fst Scripted.listening, snd Scripted.listening)
    = (rs, (s', w'))
    /\ trace w' = trace (snd Scripted.listening) ++ evs
    /\ collect popped_of rs ++ data_queue s'
       = data_queue (fst Scripted.listening) ++ chunks_read evs.
Proof.
  exact (@delivery_in_order_interleaved _ Scripted.transport
           [DoReaderStep 0; DoGetQueuedData; DoReaderStep 0; DoReaderStep 0;
            DoGetQueuedData; DoGetQueuedData; DoGetQueuedData]
           (fst Scripted.listening) (snd Scripted.listening) eq_refl).
Defined.

Lemma nothing_before_connect_witness :
  filter is_transport_call
    (trace
       (snd (snd (run Loopback.transport
                    [DoStartReading; DoWrite Loopback.AT_CRLF; DoReadLine;
                     DoGetPortInfo; DoDisconnect; DoReaderStep 0]
                    (init "/dev/ttyUSB0" 9600 1%float 8 "N" 1,
                     fresh_world Loopback.idle)))))
  = [].
Proof.
  exact (proj1 (@nothing_before_connect _ Loopback.transport
                  [DoStartReading; DoWrite Loopback.AT_CRLF; DoReadLine;
                   DoGetPortInfo; DoDisconnect; DoReaderStep 0]
                  Loopback.idle "/dev/ttyUSB0" 9600%Z 1%float 8%Z "N" 1%Z
                  eq_refl)).
Defined.

Lemma replaced_listener_is_silent_witness :
  chunks_heard 7
    (events_since (snd Scripted.listening)
       (snd (snd (_read_loop Scripted.transport 3
                    (snd (set_callback (Some 9)
                            (fst Scripted.listening,
                             snd Scripted.listening)))))))
  = [].
Proof.
  refine (proj1 (@replaced_listener_is_silent _ Scripted.transport 3
                   (fst Scripted.listening) (snd Scripted.listening) 7 9 _)).
  discriminate.
Defined.
